(** * Python Docstring Generator: the core pipeline, embedded and verified

    This development embeds the three core modules of the repository,
    [core/parser.py], [core/generator.py] and [core/validator.py] (with the
    severity helper of [utils/helpers.py]), as Rocq functions and proves the
    properties that the specification states about them.

    Conventions of the embedding.
    - A Python [str] is a Rocq [string]; a character is a code point below
      256, so that whitespace is the Latin-1 part of Python's [str.isspace].
    - A Python [dict] with a key set that varies (the generation result) is a
      [gmap string pyval]; an absent key is a lookup that returns [None].
    - Code that calls an external library (the Gemini client, pydocstyle,
      [ast.parse]) receives that library as an argument: a function that
      may fail, [inl msg] standing for a raised exception whose [str] is
      [msg].
    - Python integers are [Z]. *)

From stdpp Require Import gmap strings list fin_maps.
From Stdlib Require Import Ascii String ZArith QArith.
From Equations Require Import Equations.

Set Warnings "-register-all,-clear-no-such-hyp".

Local Open Scope string_scope.
Local Open Scope Z_scope.

(** ** Python string primitives *)

Module PyStr.

(** [str.isspace] on one character, for code points below 256. *)
Definition isspace (c : ascii) : bool :=
  let n := nat_of_ascii c in
  ((9 <=? n) && (n <=? 13))%nat || ((28 <=? n) && (n <=? 32))%nat
  || (n =? 133)%nat || (n =? 160)%nat.

(** [s.lstrip()] *)
Fixpoint lstrip (s : string) : string :=
  match s with
  | EmptyString => EmptyString
  | String c r => if isspace c then lstrip r else s
  end.

(** [s.rstrip()] *)
Fixpoint rstrip (s : string) : string :=
  match s with
  | EmptyString => EmptyString
  | String c r =>
      match rstrip r with
      | EmptyString => if isspace c then EmptyString else String c EmptyString
      | r' => String c r'
      end
  end.

(** [s.strip()] *)
Definition strip (s : string) : string := lstrip (rstrip s).

(** [s.startswith(p)] *)
Definition startswith (p s : string) : bool := String.prefix p s.

(** [s[n:]] for a non-negative literal [n] *)
Fixpoint drop_chars (n : nat) (s : string) : string :=
  match n, s with
  | O, _ => s
  | S _, EmptyString => EmptyString
  | S k, String _ r => drop_chars k r
  end.

(** [s[:n]] for a non-negative [n] *)
Fixpoint take_chars (n : nat) (s : string) : string :=
  match n, s with
  | O, _ => EmptyString
  | S _, EmptyString => EmptyString
  | S k, String c r => String c (take_chars k r)
  end.

(** [s[:-n]] for a positive literal [n]: everything but the last [n]
    characters, and the empty string when [s] is shorter. *)
Definition drop_last (n : nat) (s : string) : string :=
  take_chars (String.length s - n) s.

(** [s.endswith(p)] *)
Definition endswith (p s : string) : bool :=
  (String.length p <=? String.length s)%nat
  && String.eqb (drop_chars (String.length s - String.length p) s) p.

(** [sub in s] *)
Fixpoint contains (sub s : string) : bool :=
  String.prefix sub s ||
  match s with
  | EmptyString => false
  | String _ r => contains sub r
  end.

(** The scanning loop shared by [split], [replace] and [count]: Python
    scans left to right and, after a match, resumes behind it, so matches
    do not overlap.  [skip] counts the characters of the current match that
    are still to be passed over. *)
Fixpoint split_go (sep : string) (skip : nat) (cur : string) (s : string)
  : list string :=
  match s with
  | EmptyString => [cur]
  | String c r =>
      match skip with
      | S k => split_go sep k cur r
      | O =>
          if String.prefix sep s
          then cur :: split_go sep (String.length sep - 1) EmptyString r
          else split_go sep O (cur ++ String c EmptyString) r
      end
  end.

(** [s.split(sep)] for a non-empty separator (every call site passes a
    non-empty literal; Python raises [ValueError] on an empty one). *)
Definition split (sep s : string) : list string := split_go sep O EmptyString s.

(** [sep.join(l)] *)
Fixpoint join (sep : string) (l : list string) : string :=
  match l with
  | [] => EmptyString
  | [x] => x
  | x :: r => x ++ sep ++ join sep r
  end.

(** [s.replace(old, new)] for a non-empty [old]. *)
Fixpoint replace_go (old new : string) (skip : nat) (s : string) : string :=
  match s with
  | EmptyString => EmptyString
  | String c r =>
      match skip with
      | S k => replace_go old new k r
      | O =>
          if String.prefix old s
          then new ++ replace_go old new (String.length old - 1) r
          else String c (replace_go old new O r)
      end
  end.

Definition replace (old new s : string) : string := replace_go old new O s.

(** [s.count(sub)] for a non-empty [sub]: the number of non-overlapping
    occurrences. *)
Fixpoint count_go (sub : string) (skip : nat) (s : string) : Z :=
  match s with
  | EmptyString => 0
  | String c r =>
      match skip with
      | S k => count_go sub k r
      | O =>
          if String.prefix sub s
          then 1 + count_go sub (String.length sub - 1) r
          else count_go sub O r
      end
  end.

Definition count (sub s : string) : Z := count_go sub O s.

(** [' ' * n] *)
Fixpoint spaces (n : nat) : string :=
  match n with
  | O => EmptyString
  | S k => String " " (spaces k)
  end.

End PyStr.

(** ** Python values and exceptions *)

(** The values stored in a generation result: [None], a text, or a list of
    texts. *)
Inductive pyval : Type :=
| PNone
| PStr (s : string)
| PList (l : list string).

Global Instance pyval_eq_dec : EqDecision pyval.
Proof. solve_decision. Defined.

(** Python truthiness *)
Definition truthy (v : pyval) : bool :=
  match v with
  | PNone => false
  | PStr s => negb (String.eqb s "")
  | PList l => match l with [] => false | _ => true end
  end.

Definition truthy_opt (o : option string) : bool :=
  match o with
  | None => false
  | Some s => negb (String.eqb s "")
  end.

(** [str(x)] inside an f-string, for a value that is a text or [None]. *)
Definition fmt (o : option string) : string := default "None" o.

(** A raised exception, identified by its message. *)
Definition exn : Type := string.

(** [l[i]]: raises [IndexError] out of range. *)
Definition py_index {A} (l : list A) (i : nat) : exn + A :=
  match l !! i with
  | Some x => inr x
  | None => inl "list index out of range"
  end.

Definition bind_exn {A B} (m : exn + A) (k : A -> exn + B) : exn + B :=
  match m with
  | inl e => inl e
  | inr a => k a
  end.

Notation "'let!' x ':=' m 'in' k" := (bind_exn m (fun x => k))
  (at level 10, x name, m at level 100, k at level 200).

(** The double quote character and the line feed, as one-character texts. *)
Definition dq : string := String (ascii_of_nat 34) EmptyString.
Definition nl : string := String (ascii_of_nat 10) EmptyString.
Definition triple_dq : string := dq ++ dq ++ dq.
Definition triple_sq : string := "'''".

(** ** [core/parser.py]: the unit record *)

(** [FunctionInfo]: one record per extracted function.  An argument is the
    pair of its name and its annotation text ([None] when it has none). *)
Record FunctionInfo : Type := {
  name : string;
  args : list (string * option string);
  returns : option string;
  lineno : Z;
  existing_docstring : option string;
  body : string
}.

(** ** [core/generator.py] *)

Module Generator.

(** [DocstringGenerator._clean_docstring] *)
Definition _clean_docstring (docstring_text : string) : string :=
  let t := PyStr.replace "```python" "" docstring_text in
  let t := PyStr.replace "```" "" t in
  let t := PyStr.strip t in
  let t := if PyStr.startswith triple_dq t then PyStr.drop_chars 3 t else t in
  let t := if PyStr.endswith triple_dq t then PyStr.drop_last 3 t else t in
  let t := if PyStr.startswith triple_sq t then PyStr.drop_chars 3 t else t in
  let t := if PyStr.endswith triple_sq t then PyStr.drop_last 3 t else t in
  PyStr.strip t.

(** The dictionary [_parse_response] starts from. *)
Definition initial_result : gmap string pyval :=
  <["errors" := PList []]> (<["fixed_code" := PNone]> (<["docstring" := PStr ""]> ∅)).

(** The body of the [try] block of [_parse_response].  The subscripts are
    its only operations that can raise, and all of them come before the
    first assignment to [result], so a raise leaves [result] as it
    started. *)
Definition parse_sections (response_text : string) : exn + gmap string pyval :=
  let result := initial_result in
  let sections := PyStr.split "FIXED_CODE:" response_text in
  if (2 <=? List.length sections)%nat then
    let! s0 := py_index sections 0 in
    let docstring_part := PyStr.strip (PyStr.replace "DOCSTRING:" "" s0) in
    let! remaining := py_index sections 1 in
    let errors_split := PyStr.split "ERRORS_FOUND:" remaining in
    if (2 <=? List.length errors_split)%nat then
      let! e0 := py_index errors_split 0 in
      let fixed_code := PyStr.strip e0 in
      let! e1 := py_index errors_split 1 in
      let errors_found := PyStr.strip e1 in
      let docstring_part := _clean_docstring docstring_part in
      let result := <["docstring" := PStr docstring_part]> result in
      let result :=
        if truthy (PStr fixed_code) && negb (PyStr.contains "No fixes needed" fixed_code)
        then <["fixed_code" := PStr fixed_code]> result else result in
      let result :=
        if truthy (PStr errors_found) && negb (PyStr.contains "None" errors_found)
        then <["errors" := PList [errors_found]]> result else result in
      inr result
    else
      inr (<["docstring" := PStr (_clean_docstring docstring_part)]> result)
  else
    inr (<["docstring" := PStr (_clean_docstring (PyStr.strip response_text))]> result).

(** [DocstringGenerator._parse_response]: the [try] block, and the handler
    that falls back to the raw response. *)
Definition _parse_response (response_text : string) (function_info : FunctionInfo)
  : gmap string pyval :=
  match parse_sections response_text with
  | inr result => result
  | inl _ =>
      <["docstring" := PStr (_clean_docstring (PyStr.strip response_text))]> initial_result
  end.

(** [DocstringGenerator._create_prompt] *)
Definition _create_prompt (function_info : FunctionInfo) (style : string) : string :=
  let args_str :=
    PyStr.join ", "
      (map (fun arg => fst arg ++ ": " ++ fmt (snd arg)) (args function_info)) in
  PyStr.join nl [
    "Generate a " ++ style ++ " style docstring for this Python function.";
    "";
    "Function Name: " ++ name function_info;
    "Arguments: " ++ args_str;
    "Return Type: " ++ fmt (returns function_info);
    "";
    "Function Code:";
    body function_info;
    "";
    "Requirements:";
    "1. Follow " ++ style ++ " style docstring format strictly";
    "2. Include purpose of the function";
    "3. Describe all parameters with their types";
    "4. Describe return type and value";
    "5. Add inline comments for complex logic if needed";
    "6. Follow PEP 257 conventions";
    "7. First line should be a brief summary ending with a period";
    "8. If multi-line, leave a blank line after the summary";
    "";
    "Also, if you find any obvious errors in the code (syntax, logic), provide a fixed version.";
    "";
    "Respond in this format:";
    "DOCSTRING:";
    "[Your generated docstring here]";
    "";
    "FIXED_CODE:";
    "[Fixed code if any errors found, otherwise write " ++ dq ++ "No fixes needed" ++ dq ++ "]";
    "";
    "ERRORS_FOUND:";
    "[List any errors you found, otherwise write " ++ dq ++ "None" ++ dq ++ "]";
    ""
  ].

(** The generator object.  [model] is the client built by [__init__], or
    [None] when no key is configured. *)
Record DocstringGenerator : Type := {
  api_key : option string;
  model : option string
}.

(** [utils/config.py] *)
Definition GEMINI_MODEL : string := "gemini-2.5-flash".

(** [DocstringGenerator.__init__]; [GEMINI_API_KEY] is the value read from
    the environment by [utils/config.py]. *)
Definition __init__ (GEMINI_API_KEY : option string) (key : option string)
  : DocstringGenerator :=
  let k := if truthy_opt key then key else GEMINI_API_KEY in
  {| api_key := k;
     model := if truthy_opt k then Some GEMINI_MODEL else None |}.

Section Service.

(** The remote service: [generate_content st prompt] is the new state of
    the service and either the message of the exception raised by
    [self.model.generate_content(prompt)] or by reading [response.text], or
    the response text. *)
Context {Svc : Type}.
Variable generate_content : Svc -> string -> Svc * (exn + string).

(** What a run can observe of the outside: the service, the requests sent
    to it so far, and the calls of the progress callback so far. *)
Record World : Type := {
  svc : Svc;
  calls : list string;
  progress : list (Z * Z)
}.

Definition call_service (w : World) (prompt : string) : World * (exn + string) :=
  let '(st, r) := generate_content (svc w) prompt in
  ({| svc := st; calls := (calls w ++ [prompt])%list; progress := progress w |}, r).

(** [DocstringGenerator.generate_docstring] *)
Definition generate_docstring (self : DocstringGenerator) (w : World)
    (function_info : FunctionInfo) (style : string)
  : gmap string pyval * World :=
  match model self with
  | None =>
      (<["errors" := PList ["API key not set"]]>
         (<["fixed_code" := PNone]>
            (<["docstring" := PStr "Error: No API key configured"]> ∅)), w)
  | Some _ =>
      if truthy_opt (existing_docstring function_info) then
        (<["status" := PStr "existing"]>
           (<["errors" := PList []]>
              (<["fixed_code" := PNone]>
                 (<["docstring" := PStr (default "" (existing_docstring function_info))]> ∅))), w)
      else
        let prompt := _create_prompt function_info style in
        match call_service w prompt with
        | (w', inr text) =>
            (<["status" := PStr "generated"]> (_parse_response text function_info), w')
        | (w', inl e) =>
            (<["status" := PStr "error"]>
               (<["errors" := PList [e]]>
                  (<["fixed_code" := PNone]>
                     (<["docstring" := PStr ("Error generating docstring: " ++ e)]> ∅))), w')
        end
  end.

Definition call_progress (progress_callback : bool) (w : World) (i total : Z) : World :=
  if progress_callback
  then {| svc := svc w; calls := calls w; progress := (progress w ++ [(i, total)])%list |}
  else w.

(** The loop of [generate_batch], from index [i] on. *)
Fixpoint batch_loop (self : DocstringGenerator) (style : string)
    (progress_callback : bool) (total : Z) (functions : list FunctionInfo)
    (i : Z) (results : gmap string (gmap string pyval)) (w : World)
  : gmap string (gmap string pyval) * World :=
  match functions with
  | [] => (results, w)
  | func :: rest =>
      let '(result, w1) := generate_docstring self w func style in
      let results := <[name func := result]> results in
      let w2 := call_progress progress_callback w1 (i + 1) total in
      batch_loop self style progress_callback total rest (i + 1) results w2
  end.

(** [DocstringGenerator.generate_batch]; [progress_callback] tells whether
    a callback was passed. *)
Definition generate_batch (self : DocstringGenerator) (w : World)
    (functions : list FunctionInfo) (style : string) (progress_callback : bool)
  : gmap string (gmap string pyval) * World :=
  batch_loop self style progress_callback (Z.of_nat (List.length functions))
    functions 0 ∅ w.

End Service.

End Generator.

(** ** [core/validator.py] and the severity helper of [utils/helpers.py] *)

Module Validator.

(** One violation as pydocstyle reports it; [i_definition] is
    [str(issue.definition)], or [None] when the violation has no
    definition. *)
Record Issue : Type := {
  i_code : string;
  i_message : string;
  i_line : Z;
  i_definition : option string
}.

(** [issue_dict] *)
Record Finding : Type := {
  code : string;
  message : string;
  line : Z;
  definition : string
}.

Record Summary : Type := {
  s_compliant : Z;
  s_warnings : Z;
  s_errors : Z
}.

(** The dictionary returned by [validate_code]. *)
Record Results : Type := {
  errors : list Finding;
  warnings : list Finding;
  compliant : Z;
  total_issues : Z;
  summary : Summary
}.

(** The validator object. *)
Record DocstringValidator : Type := {
  self_errors : list Finding;
  self_warnings : list Finding;
  compliant_count : Z
}.

(** [code in ['D100', 'D101', 'D102', 'D103']], the test written out in
    [validate_code] and again in [get_file_status]. *)
Definition in_missing_codes (c : string) : bool :=
  bool_decide (c ∈ ["D100"; "D101"; "D102"; "D103"]).

Definition issue_dict (issue : Issue) : Finding :=
  {| code := i_code issue;
     message := i_message issue;
     line := i_line issue;
     definition := default "Unknown" (i_definition issue) |}.

(** The loop of [validate_code] that sorts the violations into the two
    lists. *)
Fixpoint categorize (issues : list Issue) (errors warnings : list Finding)
  : list Finding * list Finding :=
  match issues with
  | [] => (errors, warnings)
  | issue :: rest =>
      if in_missing_codes (i_code issue)
      then categorize rest (errors ++ [issue_dict issue])%list warnings
      else categorize rest errors (warnings ++ [issue_dict issue])%list
  end.

(** The severity that [get_file_status] writes into a status item. *)
Definition status_severity (c : string) : string :=
  if in_missing_codes c then "error" else "warning".

(** [utils/helpers.py], [get_severity_color] *)
Definition get_severity_color (c : string) : string :=
  if PyStr.startswith "D1" c then "error"
  else if PyStr.startswith "D2" c then "warning"
  else if PyStr.startswith "D3" c then "warning"
  else if PyStr.startswith "D4" c then "error"
  else "error".

(** [line.split('def ')[1].split('(')[0].strip()] *)
Definition extract_name (line : string) : exn + string :=
  let! after_def := py_index (PyStr.split "def " line) 1 in
  let! before_paren := py_index (PyStr.split "(" after_def) 0 in
  inr (PyStr.strip before_paren).

(** The lines that the loop body of [_insert_docstrings] appends after
    [line]. *)
Definition docstring_block (line : string)
    (docstrings : gmap string (gmap string pyval)) : exn + list string :=
  if PyStr.startswith "def " (PyStr.strip line) then
    let! func_name := extract_name line in
    match docstrings !! func_name with
    | Some result =>
        let docstring := default (PStr "") (result !! "docstring") in
        if truthy docstring then
          let indent :=
            (String.length line - String.length (PyStr.lstrip line) + 4)%nat in
          let indent_str := PyStr.spaces indent in
          match docstring with
          | PStr d =>
              inr ((indent_str ++ triple_dq)
                     :: (map (fun doc_line => (indent_str ++ doc_line)%string) (PyStr.split nl d)
                           ++ [(indent_str ++ triple_dq)%string])%list)
          | _ => inl "'list' object has no attribute 'split'"
          end
        else inr []
    | None => inr []
    end
  else inr [].

(** The [while] loop of [_insert_docstrings] over the remaining lines. *)
Fixpoint insert_loop (lines : list string)
    (docstrings : gmap string (gmap string pyval)) (result_lines : list string)
  : exn + list string :=
  match lines with
  | [] => inr result_lines
  | line :: rest =>
      let result_lines := (result_lines ++ [line])%list in
      let! block := docstring_block line docstrings in
      insert_loop rest docstrings (result_lines ++ block)%list
  end.

(** [DocstringValidator._insert_docstrings] *)
Definition _insert_docstrings (source_code : string)
    (docstrings : gmap string (gmap string pyval)) : exn + string :=
  let! result_lines := insert_loop (PyStr.split nl source_code) docstrings [] in
  inr (PyStr.join nl result_lines).

(** [DocstringValidator._format_results] *)
Definition _format_results (self : DocstringValidator) : Results :=
  let total_issues :=
    Z.of_nat (List.length (self_errors self)) + Z.of_nat (List.length (self_warnings self)) in
  {| errors := self_errors self;
     warnings := self_warnings self;
     compliant := compliant_count self;
     total_issues := total_issues;
     summary := {| s_compliant := compliant_count self;
                   s_warnings := Z.of_nat (List.length (self_warnings self));
                   s_errors := Z.of_nat (List.length (self_errors self)) |} |}.

(** The result that the [except] handler of [validate_code] returns. *)
Definition error_result (e : exn) : Results :=
  {| errors := [ {| code := "ERROR"; message := "Validation error: " ++ e;
                    line := 0; definition := "" |} ];
     warnings := [];
     compliant := 0;
     total_issues := 1;
     summary := {| s_compliant := 0; s_warnings := 0; s_errors := 1 |} |}.

(** [if generated_docstrings:] for an argument that is [None] or a
    dictionary. *)
Definition truthy_dict (d : option (gmap string (gmap string pyval))) : bool :=
  match d with
  | None => false
  | Some m => negb (bool_decide (m = ∅))
  end.

Section Engine.

(** The rule engine: [check source] writes [source] to a temporary file and
    runs pydocstyle on it; [inl msg] is any exception raised on the way,
    including the one raised when a reported item is not a violation
    record. *)
Variable check : string -> exn + list Issue.

(** The source text that the rules run on. *)
Definition merged_source (source_code : string)
    (generated_docstrings : option (gmap string (gmap string pyval)))
  : exn + string :=
  match generated_docstrings with
  | Some d =>
      if truthy_dict generated_docstrings
      then _insert_docstrings source_code d
      else inr source_code
  | None => inr source_code
  end.

(** The [try] block of [validate_code]; nothing is assigned to [self]
    before the last step that can raise. *)
Definition validate_try (self : DocstringValidator) (source_code : string)
    (generated_docstrings : option (gmap string (gmap string pyval)))
  : exn + (Results * DocstringValidator) :=
  let! source_code := merged_source source_code generated_docstrings in
  let! issues := check source_code in
  let '(errors, warnings) := categorize issues [] [] in
  let total_functions := PyStr.count "def " source_code in
  let self :=
    {| self_errors := errors;
       self_warnings := warnings;
       compliant_count := Z.max 0 (total_functions - Z.of_nat (List.length errors)) |} in
  inr (_format_results self, self).

(** [DocstringValidator.validate_code] *)
Definition validate_code (self : DocstringValidator) (source_code : string)
    (generated_docstrings : option (gmap string (gmap string pyval)))
  : Results * DocstringValidator :=
  match validate_try self source_code generated_docstrings with
  | inr r => r
  | inl e => (error_result e, self)
  end.

End Engine.

(** [DocstringValidator.__init__] *)
Definition new_validator : DocstringValidator :=
  {| self_errors := []; self_warnings := []; compliant_count := 0 |}.

End Validator.

(** ** [core/parser.py] *)

Module Parser.

(** What [_get_function_info] reads from a [FunctionDef] node.  An
    annotation is identified with the text [ast.unparse] gives for it,
    [fd_docstring] is [ast.get_docstring(node)], and [fd_body_end] is the
    [end_lineno] of the last statement of the body ([None] for an empty
    body). *)
Record FunctionDefNode : Type := {
  fd_name : string;
  fd_args : list (string * option string);
  fd_returns : option string;
  fd_lineno : Z;
  fd_docstring : option string;
  fd_body_end : option Z
}.

(** The node classes that matter to the extractor. *)
Inductive node_kind : Type :=
| FunctionDef (fd : FunctionDefNode)
| AsyncFunctionDef (fd : FunctionDefNode)
| ClassDef (class_name : string)
| OtherNode.

(** A syntax tree: a node and its children in the order of
    [ast.iter_child_nodes]. *)
Inductive node : Type :=
| Node (kind : node_kind) (children : list node).

Definition kind_of (n : node) : node_kind := let 'Node k _ := n in k.
Definition children_of (n : node) : list node := let 'Node _ c := n in c.

Fixpoint size (n : node) : nat :=
  let 'Node _ c := n in
  S ((fix sizes (l : list node) : nat :=
        match l with
        | [] => O
        | x :: r => (size x + sizes r)%nat
        end) c).

Definition total_size (q : list node) : nat :=
  fold_right (fun n acc => (size n + acc)%nat) O q.

(** [ast.walk]: the queue loop.  The first node of the queue is yielded and
    its children join the end of the queue. *)
Equations? walk_queue (todo : list node) : list node
  by wf (total_size todo) lt :=
  walk_queue [] := [];
  walk_queue (n :: rest) := n :: walk_queue (rest ++ children_of n)%list.
Proof.
  destruct n as [k c]. simpl.
  assert (Happ : forall a b, total_size (a ++ b) = (total_size a + total_size b)%nat).
  { intros a b. induction a as [|x a IH]; simpl; [reflexivity | rewrite IH; lia]. }
  assert (Hc : (fix sizes (l : list node) : nat :=
                  match l with
                  | [] => O
                  | x :: r => (size x + sizes r)%nat
                  end) c = total_size c).
  { induction c as [|x c IH]; [reflexivity | simpl; f_equal; exact IH]. }
  rewrite Happ, Hc. lia.
Qed.

(** [ast.walk(tree)] *)
Definition walk (tree : node) : list node := walk_queue [tree].

(** [l[start:stop]] with Python's treatment of negative and oversized
    bounds. *)
Definition py_slice {A} (l : list A) (start stop : Z) : list A :=
  let n := Z.of_nat (List.length l) in
  let clamp i := if i <? 0 then Z.max 0 (i + n) else Z.min i n in
  let a := clamp start in
  let b := clamp stop in
  take (Z.to_nat (b - a)) (drop (Z.to_nat a) l).

(** [CodeParser._get_annotation]; the annotation is already its text. *)
Definition _get_annotation (annotation : option string) : option string :=
  match annotation with
  | None => None
  | Some text => Some text
  end.

(** [CodeParser._get_function_body].  A statement parsed by a Python that
    has [ast.unparse] always has [end_lineno], and no step raises. *)
Definition _get_function_body (fd : FunctionDefNode) (source_code : string) : string :=
  let lines := PyStr.split nl source_code in
  let start_line := fd_lineno fd - 1 in
  let end_line :=
    match fd_body_end fd with
    | Some end_lineno => end_lineno
    | None => start_line + 1
    end in
  PyStr.join nl (py_slice lines start_line end_line).

(** [CodeParser._get_function_info] *)
Definition _get_function_info (fd : FunctionDefNode) (source_code : string)
  : FunctionInfo :=
  {| name := fd_name fd;
     args := map (fun arg => (fst arg, _get_annotation (snd arg))) (fd_args fd);
     returns := _get_annotation (fd_returns fd);
     lineno := fd_lineno fd;
     existing_docstring := fd_docstring fd;
     body := _get_function_body fd source_code |}.

(** The loop of [_extract_functions] over the nodes that [ast.walk]
    yields. *)
Fixpoint extract_loop (nodes : list node) (source_code : string)
    (functions : list FunctionInfo) : list FunctionInfo :=
  match nodes with
  | [] => functions
  | n :: rest =>
      match kind_of n with
      | FunctionDef fd =>
          extract_loop rest source_code
            (functions ++ [_get_function_info fd source_code])%list
      | _ => extract_loop rest source_code functions
      end
  end.

(** The parser object; the accuracy values 100.0, 95.0 and 0.0 are written
    as the integers they equal. *)
Record CodeParser : Type := {
  functions : list FunctionInfo;
  errors : list string;
  accuracy : Z
}.

(** [CodeParser._extract_functions] *)
Definition _extract_functions (self : CodeParser) (tree : node)
    (source_code : string) : CodeParser :=
  {| functions := extract_loop (walk tree) source_code (functions self);
     errors := errors self;
     accuracy := accuracy self |}.

(** How [ast.parse] fails. *)
Inductive parse_failure : Type :=
| SyntaxError (msg : string)
| OtherError (msg : string).

(** [CodeParser.parse_code]; [ast_parse] is [ast.parse]. *)
Definition parse_code (ast_parse : string -> parse_failure + node)
    (self : CodeParser) (source_code : string)
  : list FunctionInfo * CodeParser :=
  let self := {| functions := []; errors := []; accuracy := accuracy self |} in
  match ast_parse source_code with
  | inr tree =>
      let self := _extract_functions self tree source_code in
      let self :=
        {| functions := functions self;
           errors := errors self;
           accuracy := match errors self with [] => 100 | _ => 95 end |} in
      (functions self, self)
  | inl (SyntaxError e) =>
      ([], {| functions := functions self;
              errors := (errors self ++ [("Syntax Error: " ++ e)%string])%list;
              accuracy := 0 |})
  | inl (OtherError e) =>
      ([], {| functions := functions self;
              errors := (errors self ++ [("Parse Error: " ++ e)%string])%list;
              accuracy := 0 |})
  end.

(** [CodeParser.__init__] *)
Definition new_parser : CodeParser :=
  {| functions := []; errors := []; accuracy := 0 |}.

(** A parser known at one source text only: it answers [tree] on [source]
    and a syntax error elsewhere. *)
Definition parser_at (source : string) (tree : node)
  : string -> parse_failure + node :=
  fun s => if String.eqb s source then inr tree else inl (SyntaxError "invalid syntax").

(** The nodes of a tree in document order: a node, then its children from
    first to last, each with all its descendants. *)
Fixpoint preorder (n : node) : list node :=
  let 'Node _ c := n in
  n :: (fix go (l : list node) : list node :=
          match l with
          | [] => []
          | x :: r => (preorder x ++ go r)%list
          end) c.

Definition is_FunctionDef (n : node) : bool :=
  match kind_of n with
  | FunctionDef _ => true
  | _ => false
  end.

(** The record of a node that is a [FunctionDef]. *)
Definition record_of (source_code : string) (n : node) : option FunctionInfo :=
  match kind_of n with
  | FunctionDef fd => Some (_get_function_info fd source_code)
  | _ => None
  end.

End Parser.

(** ** Sample inputs *)

Module Samples.
Import Generator.

(** The unit of [def f(x): return x], which has no documentation. *)
Definition unit_f : FunctionInfo :=
  {| name := "f"; args := [("x", None)]; returns := None; lineno := 1;
     existing_docstring := None;
     body := "def f(x):" ++ nl ++ "    return x" |}.

(** A unit that carries documentation. *)
Definition unit_g : FunctionInfo :=
  {| name := "g"; args := []; returns := None; lineno := 1;
     existing_docstring := Some "Does nothing.";
     body := "def g():" ++ nl ++ "    " ++ triple_dq ++ "Does nothing." ++ triple_dq |}.

(** A second unit named [f], as a method of another class would be. *)
Definition unit_f2 : FunctionInfo :=
  {| name := "f"; args := [("self", None)]; returns := Some "int"; lineno := 7;
     existing_docstring := None;
     body := "    def f(self) -> int:" ++ nl ++ "        return 1" |}.

(** The well-formed response of the specification's scenario. *)
Definition scenario_response : string :=
  "DOCSTRING:" ++ nl ++ "Hello." ++ nl ++ nl ++
  "FIXED_CODE:" ++ nl ++ "No fixes needed" ++ nl ++ nl ++
  "ERRORS_FOUND:" ++ nl ++ "None".

(** The dictionary returned when no key is configured. *)
Definition no_key_result : gmap string pyval :=
  <["errors" := PList ["API key not set"]]>
    (<["fixed_code" := PNone]>
       (<["docstring" := PStr "Error: No API key configured"]> ∅)).

(** A service that answers every request with the same text. *)
Definition constant_service (text : string) : unit -> string -> unit * (exn + string) :=
  fun st _ => (st, inr text).

(** A service that fails on every request. *)
Definition failing_service (msg : string) : unit -> string -> unit * (exn + string) :=
  fun st _ => (st, inl msg).

Definition empty_world : @World unit := {| svc := tt; calls := []; progress := [] |}.

(** A generator with a key. *)
Definition keyed_generator : DocstringGenerator := __init__ None (Some "k").

(** A generator with no key, neither passed nor in the environment. *)
Definition keyless_generator : DocstringGenerator := __init__ None None.

(** The source [def f(x): return x] on two lines. *)
Definition source_f : string := "def f(x):" ++ nl ++ "    return x".

(** A mapping with a generated text for [f]. *)
Definition docs_f : gmap string (gmap string pyval) :=
  {[ "f" := <["status" := PStr "generated"]>
              (<["errors" := PList []]>
                 (<["fixed_code" := PNone]>
                    (<["docstring" := PStr "Return x."]> ∅))) ]}.

(** A class whose [__init__] has no documentation, and what pydocstyle
    reports for it: the missing-documentation code D107. *)
Definition source_init : string :=
  triple_dq ++ "M." ++ triple_dq ++ nl ++
  "class A:" ++ nl ++
  "    " ++ triple_dq ++ "A." ++ triple_dq ++ nl ++
  nl ++
  "    def __init__(self):" ++ nl ++
  "        pass" ++ nl.

Definition issue_D107 : Validator.Issue :=
  {| Validator.i_code := "D107";
     Validator.i_message := "Missing docstring in __init__";
     Validator.i_line := 5;
     Validator.i_definition := Some "in public method `__init__`" |}.

Definition check_init : string -> exn + list Validator.Issue :=
  fun _ => inr [issue_D107].

(** A documented module with no definition, whose comment holds the text
    [def ]: pydocstyle reports nothing for it. *)
Definition source_comment : string :=
  triple_dq ++ "Module doc." ++ triple_dq ++ nl ++
  "x = 1  # def is a keyword" ++ nl.

Definition check_clean : string -> exn + list Validator.Issue :=
  fun _ => inr [].

Definition leaf : Parser.node := Parser.Node Parser.OtherNode [].

(** The tree of [source_comment]: [Module(Expr(Constant), Assign(Name(Store),
    Constant))]. *)
Definition tree_comment : Parser.node :=
  Parser.Node Parser.OtherNode
    [ Parser.Node Parser.OtherNode [leaf];
      Parser.Node Parser.OtherNode [Parser.Node Parser.OtherNode [leaf]; leaf] ].

(** A function nested in another, followed by a third:
[[
def a():
    def b():
        pass
def c():
    pass
]] *)
Definition source_nested : string :=
  "def a():" ++ nl ++
  "    def b():" ++ nl ++
  "        pass" ++ nl ++
  "def c():" ++ nl ++
  "    pass" ++ nl.

Definition fd_a : Parser.FunctionDefNode :=
  {| Parser.fd_name := "a"; Parser.fd_args := []; Parser.fd_returns := None;
     Parser.fd_lineno := 1; Parser.fd_docstring := None; Parser.fd_body_end := Some 3 |}.
Definition fd_b : Parser.FunctionDefNode :=
  {| Parser.fd_name := "b"; Parser.fd_args := []; Parser.fd_returns := None;
     Parser.fd_lineno := 2; Parser.fd_docstring := None; Parser.fd_body_end := Some 3 |}.
Definition fd_c : Parser.FunctionDefNode :=
  {| Parser.fd_name := "c"; Parser.fd_args := []; Parser.fd_returns := None;
     Parser.fd_lineno := 4; Parser.fd_docstring := None; Parser.fd_body_end := Some 5 |}.

(** The tree of [source_nested]; the children of a [FunctionDef] are its
    [arguments] node and then the statements of its body. *)
Definition tree_nested : Parser.node :=
  Parser.Node Parser.OtherNode
    [ Parser.Node (Parser.FunctionDef fd_a)
        [ leaf; Parser.Node (Parser.FunctionDef fd_b) [leaf; leaf] ];
      Parser.Node (Parser.FunctionDef fd_c) [leaf; leaf] ].

End Samples.

(** ** The vocabulary of the statements *)

Module Statements.
Import PyStr.

(** *** Texts *)

(** Whether the character [c] occurs in [s]. *)
Fixpoint has_char (c : ascii) (s : string) : bool :=
  match s with
  | EmptyString => false
  | String a r => bool_decide (a = c) || has_char c r
  end.

(** *** Generation *)

Section Generation.
Import Generator.

(** The requests that one unit adds. *)
Definition requests_of (self : DocstringGenerator) (style : string)
    (function_info : FunctionInfo) : list string :=
  match model self with
  | None => []
  | Some _ =>
      if truthy_opt (existing_docstring function_info) then []
      else [_create_prompt function_info style]
  end.

(** The calls of the callback made from index [i] on for [n] units. *)
Definition progress_trace (cb : bool) (i total : Z) (n : nat) : list (Z * Z) :=
  if cb then map (fun k => (i + Z.of_nat k, total)) (seq 1 n) else [].

End Generation.

(** *** Validation *)

Section Validation.
Import Validator.

(** Every [docstring] entry of the mapping that is not empty is a text, as
    the entries written by the generator are. *)
Definition docs_texts (docstrings : gmap string (gmap string pyval)) : Prop :=
  forall nm result v,
    docstrings !! nm = Some result -> result !! "docstring" = Some v ->
    truthy v = true -> exists d, v = PStr d.

(** The lines added after [line]: none when the loop body adds none. *)
Definition inserted_after (docstrings : gmap string (gmap string pyval))
    (line : string) : list string :=
  match docstring_block line docstrings with
  | inr block => block
  | inl _ => []
  end.

(** The indentation of the block added after [line]. *)
Definition indent_of (line : string) : string :=
  spaces (String.length line - String.length (lstrip line) + 4).

(** The block made from the documentation text [d] for [line]. *)
Definition block_for (line d : string) : list string :=
  (indent_of line ++ triple_dq)
    :: (map (fun doc_line => (indent_of line ++ doc_line)%string) (split nl d)
          ++ [(indent_of line ++ triple_dq)%string])%list.

(** The codes that [validate_code] files under errors. *)
Definition missing_codes : list string := ["D100"; "D101"; "D102"; "D103"].

(** The findings whose code is in the list, in the order of the report. *)
Definition error_issues (issues : list Issue) : list Finding :=
  map issue_dict (List.filter (fun i => in_missing_codes (i_code i)) issues).

(** The findings whose code is not in the list, in the order of the
    report. *)
Definition warning_issues (issues : list Issue) : list Finding :=
  map issue_dict (List.filter (fun i => negb (in_missing_codes (i_code i))) issues).

(** The synthetic finding of the [except] handler. *)
Definition synthetic (e : exn) : Finding :=
  {| code := "ERROR"; message := "Validation error: " ++ e; line := 0; definition := "" |}.

(** What the rule engine reports for the merged source, or the exception
    that the [try] block runs into. *)
Definition engine_report (check : string -> exn + list Issue)
    (source_code : string)
    (generated_docstrings : option (gmap string (gmap string pyval)))
  : exn + list Issue :=
  let! merged := merged_source source_code generated_docstrings in
  check merged.

(** The validator after a pass that found [issues] on [merged]. *)
Definition validator_after (merged : string) (issues : list Issue) : DocstringValidator :=
  {| self_errors := error_issues issues;
     self_warnings := warning_issues issues;
     compliant_count :=
       Z.max 0 (count "def " merged - Z.of_nat (List.length (error_issues issues))) |}.

(** A code of the D1xx group, as [get_severity_color] recognises it. *)
Definition is_D1xx (c : string) : bool := startswith "D1" c.

(** C3 as stated: a finding is an error exactly when its code is a D1xx
    code, and a warning otherwise. *)
Definition severity_is_D1xx (check : string -> exn + list Issue)
    (self : DocstringValidator) (source_code : string)
    (generated_docstrings : option (gmap string (gmap string pyval))) : Prop :=
  let r := fst (validate_code check self source_code generated_docstrings) in
  forall f, f ∈ errors r \/ f ∈ warnings r ->
    (f ∈ errors r <-> is_D1xx (code f) = true)
    /\ (f ∈ warnings r <-> is_D1xx (code f) = false).

(** The number of documentable units of a source text: the number of
    records that the extractor makes for it. *)
Definition total_definable_units (ast_parse : string -> Parser.parse_failure + Parser.node)
    (source_code : string) : Z :=
  Z.of_nat (List.length (fst (Parser.parse_code ast_parse Parser.new_parser source_code))).

(** C5 as stated: [compliant] is computed from the number of documentable
    units of the merged source. *)
Definition compliant_from_units
    (ast_parse : string -> Parser.parse_failure + Parser.node)
    (check : string -> exn + list Issue)
    (self : DocstringValidator) (source_code : string)
    (generated_docstrings : option (gmap string (gmap string pyval))) : Prop :=
  let r := fst (validate_code check self source_code generated_docstrings) in
  forall merged, merged_source source_code generated_docstrings = inr merged ->
    compliant r
    = Z.max 0 (total_definable_units ast_parse merged - Z.of_nat (List.length (errors r))).

End Validation.

(** *** Extraction *)

Section Extraction.
Import Parser.

(** C6 as stated: the records are those of the function definitions in
    document order. *)
Definition records_in_document_order (ast_parse : string -> parse_failure + node)
    (source_code : string) (tree : node) : Prop :=
  ast_parse source_code = inr tree ->
  fst (parse_code ast_parse new_parser source_code)
  = omap (record_of source_code) (preorder tree).

End Extraction.

End Statements.

(** * More of the code *)

(** ** [core/parser.py]: coverage *)

Module Coverage.
Import Parser.

(** The dictionary returned by [get_coverage_stats].  [percentage] is a
    Python float; it is kept here as the exact quotient that the float
    approximates. *)
Record CoverageStats : Type := {
  total : Z;
  with_docstring : Z;
  without_docstring : Z;
  percentage : Q
}.

(** [sum(1 for f in self.functions if f.existing_docstring)] *)
Fixpoint count_documented (fs : list FunctionInfo) : Z :=
  match fs with
  | [] => 0
  | f :: rest =>
      if truthy_opt (existing_docstring f)
      then 1 + count_documented rest
      else count_documented rest
  end.

(** [CodeParser.get_coverage_stats] *)
Definition get_coverage_stats (self : CodeParser) : CoverageStats :=
  let total := Z.of_nat (List.length (functions self)) in
  if total =? 0 then
    {| total := 0; with_docstring := 0; without_docstring := 0; percentage := 0%Q |}
  else
    let with_docstring := count_documented (functions self) in
    let without_docstring := total - with_docstring in
    {| total := total;
       with_docstring := with_docstring;
       without_docstring := without_docstring;
       percentage := Qmult (Qmake with_docstring (Z.to_pos total)) (inject_Z 100) |}.

End Coverage.

(** ** [core/validator.py]: the status report *)

Module Status.
Import Validator.

(** The table of [_get_issue_message], in the order it is written. *)
Definition messages : list (string * string) :=
  [ ("D100", "Missing docstring in public module");
    ("D101", "Missing docstring in public class");
    ("D102", "Missing docstring in public method");
    ("D103", "Missing docstring in public function");
    ("D200", "One-line docstring should fit on one line");
    ("D201", "No blank lines allowed before function docstring");
    ("D202", "No blank lines allowed after function docstring");
    ("D203", "One blank line required before class docstring");
    ("D204", "One blank line required after class docstring");
    ("D205", "One blank line required between summary and description");
    ("D206", "Docstring should be indented with spaces, not tabs");
    ("D207", "Docstring is under-indented");
    ("D208", "Docstring is over-indented");
    ("D209", "Multi-line docstring closing quotes should be on a separate line");
    ("D210", "No whitespaces allowed surrounding docstring text");
    ("D211", "No blank lines allowed before class docstring");
    ("D212", "Multi-line docstring summary should start at the first line");
    ("D213", "Multi-line docstring summary should start at the second line");
    ("D300", "Use triple double quotes for docstrings");
    ("D301", "Use r" ++ triple_dq ++ " if any backslashes in a docstring");
    ("D400", "First line should end with a period");
    ("D401", "First line should be in imperative mood");
    ("D402", "First line should not be the function signature");
    ("D403", "First word of the first line should be capitalized");
    ("D404", "First word of the docstring should not be " ++ dq ++ "This" ++ dq);
    ("D405", "Section name should be properly capitalized");
    ("D406", "Section name should end with a newline");
    ("D407", "Missing dashed underline after section");
    ("D408", "Section underline should be on the line after the section name");
    ("D409", "Section underline should match the length of its name");
    ("D410", "Missing blank line after section");
    ("D411", "Missing blank line before section");
    ("D412", "No blank lines allowed between section header and content");
    ("D413", "Missing blank line after last section");
    ("D414", "Section has no content");
    ("D415", "First line should end with a period, question mark, or exclamation point");
    ("D416", "Section name should end with a colon");
    ("D417", "Missing argument descriptions in the docstring") ].

(** [d.get(key, default)] on a table written as a list of pairs with
    distinct keys. *)
Fixpoint table_get (table : list (string * string)) (key default : string) : string :=
  match table with
  | [] => default
  | (k, v) :: rest => if String.eqb k key then v else table_get rest key default
  end.

(** [DocstringValidator._get_issue_message] *)
Definition _get_issue_message (c : string) : string :=
  table_get messages c ("PEP 257 violation: " ++ c).

(** One step of the grouping loops of [get_file_status]:
    [if code not in issue_types: issue_types[code] = []] and then
    [issue_types[code].append(finding)].  The dictionary keeps its keys in
    the order of their first insertion. *)
Fixpoint group_add (issue_types : list (string * list Finding)) (f : Finding)
  : list (string * list Finding) :=
  match issue_types with
  | [] => [(code f, [f])]
  | (c, l) :: rest =>
      if String.eqb c (code f)
      then (c, (l ++ [f])%list) :: rest
      else (c, l) :: group_add rest f
  end.

(** One element of the list returned by [get_file_status]. *)
Record StatusItem : Type := {
  st_code : string;
  st_message : string;
  st_count : Z;
  st_severity : string
}.

(** The dictionary [issue_types] after the two grouping loops. *)
Definition issue_types_of (results : Results) : list (string * list Finding) :=
  fold_left group_add (warnings results) (fold_left group_add (errors results) []).

(** [DocstringValidator.get_file_status] *)
Definition get_file_status (results : Results) : list StatusItem :=
  map (fun entry : string * list Finding =>
         let (c, issues) := entry in
         {| st_code := c;
            st_message := _get_issue_message c;
            st_count := Z.of_nat (List.length issues);
            st_severity := if in_missing_codes c then "error" else "warning" |})
      (issue_types_of results).

End Status.

(** ** [utils/helpers.py]: formatting one definition *)

Module Helpers.

(** [s * n] for a text [s] and an integer [n]: empty for [n <= 0]. *)
Definition repeat_text (s : string) (n : Z) : string :=
  PyStr.join "" (repeat s (Z.to_nat n)).

Definition is_definition_line (line : string) : bool :=
  PyStr.startswith "def " (PyStr.strip line)
  || PyStr.startswith "class " (PyStr.strip line).

(** The first loop of [format_code_with_docstring]: the index of the first
    definition line from index [i] on, and [0] when there is none. *)
Fixpoint find_def_line (lines : list string) (i : nat) : nat :=
  match lines with
  | [] => O
  | line :: rest => if is_definition_line line then i else find_def_line rest (S i)
  end.

(** [formatted_docstring] *)
Definition formatted_docstring (indent docstring : string) : string :=
  (indent ++ triple_dq ++ nl)
  ++ PyStr.join "" (map (fun line => (indent ++ line ++ nl)%string) (PyStr.split nl docstring))
  ++ indent ++ triple_dq.

Definition starts_with_quotes (line : string) : bool :=
  PyStr.startswith triple_dq line || PyStr.startswith triple_sq line.

Definition has_quotes (line : string) : bool :=
  PyStr.contains triple_dq line || PyStr.contains triple_sq line.

Definition one_line_docstring (line : string) : bool :=
  (PyStr.count triple_dq line =? 2) || (PyStr.count triple_sq line =? 2).

(** The last loop of [format_code_with_docstring] over the lines after the
    definition line. *)
Fixpoint keep_loop (rest : list string) (skip_next : bool) (result_lines : list string)
  : list string :=
  match rest with
  | [] => result_lines
  | raw :: rest' =>
      let line := PyStr.strip raw in
      if starts_with_quotes line then
        if one_line_docstring line
        then keep_loop rest' skip_next result_lines
        else keep_loop rest' true result_lines
      else if skip_next then
        if has_quotes line
        then keep_loop rest' false result_lines
        else keep_loop rest' true result_lines
      else keep_loop rest' skip_next (result_lines ++ [raw])%list
  end.

(** [format_code_with_docstring] *)
Definition format_code_with_docstring (original_code docstring : string)
    (indent_level : Z) : string :=
  let lines := PyStr.split nl original_code in
  let def_line_idx := find_def_line lines O in
  let indent := repeat_text "    " indent_level in
  let result_lines := take (S def_line_idx) lines in
  let result_lines := (result_lines ++ [formatted_docstring indent docstring])%list in
  PyStr.join nl (keep_loop (drop (S def_line_idx) lines) false result_lines).

End Helpers.

(** ** [ui/main_window.py]: writing the generated texts into the source *)

Module MainWindow.
Import Validator.

(** [while j < len(lines) and not lines[j].strip(): j += 1], counted from
    the line after the definition line: the number of blank lines that
    follow it. *)
Fixpoint blank_run (following : list string) : nat :=
  match following with
  | [] => O
  | line :: rest => if String.eqb (PyStr.strip line) "" then S (blank_run rest) else O
  end.

(** The search for the end of the old documentation: [candidates] are the
    lines from index [j] on and [offset] is [j - i].  The answer is the
    distance from [i] to the line that [i] is set to, and [0] when [i]
    stays. *)
Fixpoint find_end (candidates : list string) (offset : nat) : nat :=
  match candidates with
  | [] => O
  | line :: rest =>
      if Helpers.has_quotes line && (1 <? offset)%nat
      then offset
      else find_end rest (S offset)
  end.

(** How many of the lines after a definition line the loop passes over
    before it resumes. *)
Definition old_docstring_span (following : list string) : nat :=
  let blanks := blank_run following in
  match drop blanks following with
  | [] => O
  | first :: _ =>
      if Helpers.starts_with_quotes (PyStr.strip first)
      then find_end (drop blanks following) (S blanks)
      else O
  end.

(** What the loop body does after appending [line]: the lines to add and
    the number of following lines to pass over. *)
Definition generated_block (line : string) (following : list string)
    (generated_docstrings : gmap string (gmap string pyval))
  : exn + (list string * nat) :=
  if PyStr.startswith "def " (PyStr.strip line) then
    let! func_name := extract_name line in
    match generated_docstrings !! func_name with
    | Some result =>
        let docstring := default (PStr "") (result !! "docstring") in
        if truthy docstring
           && bool_decide (result !! "status" = Some (PStr "generated"))
        then
          let indent :=
            (String.length line - String.length (PyStr.lstrip line) + 4)%nat in
          let indent_str := PyStr.spaces indent in
          match docstring with
          | PStr d =>
              inr ((indent_str ++ triple_dq)
                     :: (map (fun doc_line => (indent_str ++ doc_line)%string)
                           (PyStr.split nl d)
                           ++ [(indent_str ++ triple_dq)%string])%list,
                   old_docstring_span following)
          | _ => inl "'list' object has no attribute 'split'"
          end
        else inr ([], O)
    | None => inr ([], O)
    end
  else inr ([], O).

(** The [while] loop of [_insert_docstrings_into_code].  [rest] holds the
    lines from index [i] on; [skip] counts the lines still to pass over
    after [i] was moved forward. *)
Fixpoint into_loop (rest : list string) (skip : nat)
    (generated_docstrings : gmap string (gmap string pyval))
    (result_lines : list string) : exn + list string :=
  match rest with
  | [] => inr result_lines
  | line :: following =>
      match skip with
      | S k => into_loop following k generated_docstrings result_lines
      | O =>
          let result_lines := (result_lines ++ [line])%list in
          let! step := generated_block line following generated_docstrings in
          into_loop following (snd step) generated_docstrings
            (result_lines ++ fst step)%list
      end
  end.

(** [MainWindow._insert_docstrings_into_code], as a function of the two
    attributes it reads. *)
Definition _insert_docstrings_into_code (source_code : string)
    (generated_docstrings : gmap string (gmap string pyval)) : exn + string :=
  let! result_lines :=
    into_loop (PyStr.split nl source_code) O generated_docstrings [] in
  inr (PyStr.join nl result_lines).

End MainWindow.

(** ** More vocabulary *)

Module MoreStatements.
Import PyStr.

(** The shape of every parsed response. *)
Definition response_shape (r : gmap string pyval) : Prop :=
  (exists d, r !! "docstring" = Some (PStr d) /\ strip d = d)
  /\ (r !! "fixed_code" = Some PNone
      \/ exists c, r !! "fixed_code" = Some (PStr c) /\ c <> ""
                   /\ contains "No fixes needed" c = false)
  /\ (r !! "errors" = Some (PList [])
      \/ exists e, r !! "errors" = Some (PList [e]) /\ e <> ""
                   /\ contains "None" e = false)
  /\ dom r = ({["docstring"; "fixed_code"; "errors"]} : gset string).

(** What every caller may rely on: the three entries that the window reads
    with a subscript. *)
Definition readable (r : gmap string pyval) : Prop :=
  (exists d, r !! "docstring" = Some (PStr d))
  /\ (r !! "fixed_code" = Some PNone \/ exists c, r !! "fixed_code" = Some (PStr c))
  /\ (exists l, r !! "errors" = Some (PList l)).

(** The number of findings held by the groups of [issue_types]. *)
Definition group_total (acc : list (string * list Validator.Finding)) : Z :=
  foldr Z.add 0 (map (fun entry => Z.of_nat (List.length (snd entry))) acc).

(** The lines that the last loop of [format_code_with_docstring] keeps of
    [rest], as a list of their own. *)
Fixpoint kept_lines (rest : list string) (skip_next : bool) : list string :=
  match rest with
  | [] => []
  | raw :: rest' =>
      let line := strip raw in
      if Helpers.starts_with_quotes line then
        if Helpers.one_line_docstring line
        then kept_lines rest' skip_next
        else kept_lines rest' true
      else if skip_next then
        if Helpers.has_quotes line
        then kept_lines rest' false
        else kept_lines rest' true
      else raw :: kept_lines rest' skip_next
  end.

(** The entries of a mapping whose status is [generated]. *)
Definition generated_only (generated : gmap string (gmap string pyval))
  : gmap string (gmap string pyval) :=
  filter (fun entry => snd entry !! "status" = Some (PStr "generated")) generated.

(** A function [f] with documentation in the usual layout: the opening
    triple quote on the line after the definition line, the text [Old.] on
    the next, the closing triple quote on a line of its own, and then the
    body. *)
Definition source_documented : string :=
  "def f(x):" ++ nl ++
  "    " ++ triple_dq ++ nl ++
  "    Old." ++ nl ++
  "    " ++ triple_dq ++ nl ++
  "    return x".

End MoreStatements.

(** * Properties *)

(** ** The string primitives on examples *)

Example strip_ex : PyStr.strip "  def f(x):  " = "def f(x):".
Proof. reflexivity. Qed.

Example split_ex :
  PyStr.split "def " "  def f(x): def g" = ["  "; "f(x): "; "g"].
Proof. reflexivity. Qed.

Example split_empty_ex : PyStr.split "," "" = [""].
Proof. reflexivity. Qed.

Example replace_ex : PyStr.replace "```" "" "```python x```" = "python x".
Proof. reflexivity. Qed.

Example count_ex : PyStr.count "aa" "aaaaa" = 2.
Proof. reflexivity. Qed.

Example endswith_ex : PyStr.endswith "'''" "ab'''" = true.
Proof. reflexivity. Qed.

Example drop_last_ex : PyStr.drop_last 3 "ab'''" = "ab".
Proof. reflexivity. Qed.

(** ** The response interpreter *)

Module ParseResponseProps.
Import Generator Samples.

Example parse_scenario :
  let r := _parse_response scenario_response unit_f in
  r !! "docstring" = Some (PStr "Hello.")
  /\ r !! "fixed_code" = Some PNone
  /\ r !! "errors" = Some (PList []).
Proof. vm_compute. repeat split. Qed.

Example parse_fenced :
  _parse_response ("```python" ++ nl ++ triple_dq ++ "Add." ++ triple_dq ++ nl ++ "```") unit_f
    !! "docstring" = Some (PStr "Add.").
Proof. vm_compute. reflexivity. Qed.

Lemma py_index_lt {A} (l : list A) (i : nat) :
  (i < List.length l)%nat -> exists x, py_index l i = inr x.
Proof.
  intros Hi. unfold py_index.
  destruct (lookup_lt_is_Some_2 l i Hi) as [x Hx].
  exists x. rewrite Hx. reflexivity.
Qed.

(** The [try] block of [_parse_response] always completes: its subscripts
    are guarded by the length tests before them. *)
Lemma parse_sections_returns (response_text : string) :
  exists result, parse_sections response_text = inr result
    /\ exists d, result !! "docstring" = Some (PStr d).
Proof.
  unfold parse_sections.
  destruct (2 <=? List.length (PyStr.split "FIXED_CODE:" response_text))%nat eqn:H1.
  - apply Nat.leb_le in H1.
    destruct (py_index_lt (PyStr.split "FIXED_CODE:" response_text) 0) as [s0 ->]; [lia|].
    destruct (py_index_lt (PyStr.split "FIXED_CODE:" response_text) 1) as [s1 ->]; [lia|].
    cbn [bind_exn].
    destruct (2 <=? List.length (PyStr.split "ERRORS_FOUND:" s1))%nat eqn:H2.
    + apply Nat.leb_le in H2.
      destruct (py_index_lt (PyStr.split "ERRORS_FOUND:" s1) 0) as [e0 ->]; [lia|].
      destruct (py_index_lt (PyStr.split "ERRORS_FOUND:" s1) 1) as [e1 ->]; [lia|].
      cbn [bind_exn].
      eexists; split; [reflexivity|].
      exists (_clean_docstring (PyStr.strip (PyStr.replace "DOCSTRING:" "" s0))).
      repeat case_match; by simplify_map_eq.
    + eexists; split; [reflexivity|]. eexists. by simplify_map_eq.
  - eexists; split; [reflexivity|]. eexists. by simplify_map_eq.
Qed.

(** C7. For every response text (the empty text, garbage, and text with no
    section marker among them) and every unit, [_parse_response] returns a
    dictionary whose [docstring] entry is present and is a text, never
    [None]; its [try] block completes without raising, so the exception
    handler is not even reached. *)
Theorem parse_response_total (response_text : string) (function_info : FunctionInfo) :
  (exists d, _parse_response response_text function_info !! "docstring" = Some (PStr d))
  /\ (exists result, parse_sections response_text = inr result
        /\ _parse_response response_text function_info = result).
Proof.
  destruct (parse_sections_returns response_text) as (result & Hr & d & Hd).
  unfold _parse_response. rewrite Hr. split; [exists d; exact Hd | exists result; auto].
Qed.

(** Without the section markers the whole response becomes the
    documentation text. *)
Lemma parse_response_fallback (response_text : string) (function_info : FunctionInfo) :
  PyStr.split "FIXED_CODE:" response_text = [response_text] ->
  _parse_response response_text function_info
  = <["docstring" := PStr (_clean_docstring (PyStr.strip response_text))]> initial_result.
Proof.
  intros H. unfold _parse_response, parse_sections. rewrite H. reflexivity.
Qed.

Example parse_empty :
  _parse_response "" unit_f !! "docstring" = Some (PStr "").
Proof. vm_compute. reflexivity. Qed.

Example parse_garbage :
  _parse_response "%%% ~~ FIXED_CODE: ?? " unit_f !! "docstring" = Some (PStr "%%% ~~").
Proof. vm_compute. reflexivity. Qed.

End ParseResponseProps.

(** ** The generation orchestrator *)

Module GeneratorProps.
Import Generator Samples Statements.

Section WithService.

Context {Svc : Type}.
Variable generate_content : Svc -> string -> Svc * (exn + string).

Lemma init_no_key_no_model env key :
  truthy_opt key = false -> truthy_opt env = false ->
  model (__init__ env key) = None.
Proof. intros Hk He. unfold __init__. rewrite Hk. simpl. rewrite He. reflexivity. Qed.

(** C1. With no key configured, [generate_docstring] returns at once, for
    every unit: the world is unchanged (no request reaches the service), the
    message is the fixed one, and the returned dictionary has NO [status]
    entry; in particular its status is not [error]. *)
Theorem no_credential_result (self : DocstringGenerator) (w : World)
    (function_info : FunctionInfo) (style : string) :
  model self = None ->
  generate_docstring generate_content self w function_info style = (no_key_result, w)
  /\ no_key_result !! "docstring" = Some (PStr "Error: No API key configured")
  /\ no_key_result !! "errors" = Some (PList ["API key not set"])
  /\ no_key_result !! "status" = None
  /\ no_key_result !! "status" <> Some (PStr "error").
Proof.
  intros Hm. unfold generate_docstring. rewrite Hm.
  repeat split; try reflexivity. vm_compute. discriminate.
Qed.

(** With a key configured, the status follows the three cases: a unit with
    documentation is returned as [existing] and the world is left as it
    was; otherwise exactly one request, the prompt of the unit, reaches
    the service, and the status is [error] when that call raises and
    [generated] when it answers. *)
Lemma status_with_credential (self : DocstringGenerator) (w : World)
    (function_info : FunctionInfo) (style : string) (m : string) :
  model self = Some m ->
  let r := generate_docstring generate_content self w function_info style in
  if truthy_opt (existing_docstring function_info)
  then fst r !! "status" = Some (PStr "existing") /\ snd r = w
       /\ fst r !! "docstring" = PStr <$> existing_docstring function_info
  else calls (snd r) = (calls w ++ [_create_prompt function_info style])%list
       /\ progress (snd r) = progress w
       /\ match snd (generate_content (svc w) (_create_prompt function_info style)) with
          | inl e => fst r !! "status" = Some (PStr "error")
                     /\ fst r !! "errors" = Some (PList [e])
          | inr _ => fst r !! "status" = Some (PStr "generated")
          end.
Proof.
  intros Hm. unfold generate_docstring. rewrite Hm.
  destruct (truthy_opt (existing_docstring function_info)) eqn:Hd.
  - cbn [fst snd]. split_and!; [by simplify_map_eq | reflexivity |].
    destruct (existing_docstring function_info); [by simplify_map_eq | discriminate].
  - unfold call_service.
    destruct (generate_content (svc w) (_create_prompt function_info style)) as [st [e|text]];
      cbn [fst snd calls progress]; split_and!; try reflexivity; by simplify_map_eq.
Qed.

(** The status is always one of the three values when a key is
    configured. *)
Lemma status_with_credential_cases (self : DocstringGenerator) (w : World)
    (function_info : FunctionInfo) (style : string) (m : string) :
  model self = Some m ->
  let st := fst (generate_docstring generate_content self w function_info style) !! "status" in
  st = Some (PStr "existing") \/ st = Some (PStr "error") \/ st = Some (PStr "generated").
Proof.
  intros Hm.
  pose proof (status_with_credential self w function_info style m Hm) as H.
  cbn zeta in H |- *.
  destruct (truthy_opt (existing_docstring function_info)).
  - left. apply H.
  - destruct H as (_ & _ & H).
    destruct (snd (generate_content (svc w) (_create_prompt function_info style)));
      [right; left | right; right]; apply H.
Qed.

(** C2. With no key configured the dictionary returned for a unit has no
    [status] entry at all, whether or not the unit carries documentation:
    the status is none of [existing], [error] and [generated], where the
    invariant asks for [error]. *)
Theorem no_credential_status_absent (w : World) (function_info : FunctionInfo)
    (style : string) :
  let r := generate_docstring generate_content keyless_generator w function_info style in
  fst r !! "status" = None
  /\ fst r !! "status" <> Some (PStr "error")
  /\ fst r !! "status" <> Some (PStr "existing")
  /\ fst r !! "status" <> Some (PStr "generated")
  /\ snd r = w.
Proof.
  cbn zeta. unfold generate_docstring. cbn [keyless_generator __init__ truthy_opt model fst snd].
  assert (H : no_key_result !! "status" = None) by (vm_compute; reflexivity).
  fold no_key_result. rewrite H. split_and!; done.
Qed.

(** *** The prompt builder *)

(** The prompt reads the name, the arguments, the return type and the body
    of the unit and the style, and nothing else. *)
Lemma create_prompt_fields (u1 u2 : FunctionInfo) (style : string) :
  name u1 = name u2 -> args u1 = args u2 -> returns u1 = returns u2 ->
  body u1 = body u2 ->
  _create_prompt u1 style = _create_prompt u2 style.
Proof. intros Hn Ha Hr Hb. unfold _create_prompt. rewrite Hn, Ha, Hr, Hb. reflexivity. Qed.

(** The request that reaches the service for a unit without documentation
    is the prompt of that unit, whatever the generator and the world. *)
Lemma request_is_prompt (self : DocstringGenerator) (w : World)
    (function_info : FunctionInfo) (style : string) (m : string) :
  model self = Some m ->
  truthy_opt (existing_docstring function_info) = false ->
  calls (snd (generate_docstring generate_content self w function_info style))
  = (calls w ++ [_create_prompt function_info style])%list.
Proof.
  intros Hm Hd.
  pose proof (status_with_credential self w function_info style m Hm) as H.
  cbn zeta in H. rewrite Hd in H. apply H.
Qed.

(** *** The batch loop *)

Lemma generate_docstring_progress (self : DocstringGenerator) (w : World)
    (function_info : FunctionInfo) (style : string) :
  progress (snd (generate_docstring generate_content self w function_info style))
  = progress w.
Proof.
  unfold generate_docstring, call_service.
  destruct (model self); [|reflexivity].
  destruct (truthy_opt _); [reflexivity|].
  destruct (generate_content _ _) as [st [e|t]]; reflexivity.
Qed.

Lemma generate_docstring_calls (self : DocstringGenerator) (w : World)
    (function_info : FunctionInfo) (style : string) :
  calls (snd (generate_docstring generate_content self w function_info style))
  = (calls w ++ requests_of self style function_info)%list.
Proof.
  unfold generate_docstring, call_service, requests_of.
  destruct (model self); [|by rewrite app_nil_r].
  destruct (truthy_opt _); [by rewrite app_nil_r|].
  destruct (generate_content _ _) as [st [e|t]]; reflexivity.
Qed.

Lemma batch_loop_app self style cb total (l1 l2 : list FunctionInfo) i results (w : World) :
  batch_loop generate_content self style cb total (l1 ++ l2)%list i results w
  = batch_loop generate_content self style cb total l2 (i + Z.of_nat (List.length l1))
      (fst (batch_loop generate_content self style cb total l1 i results w))
      (snd (batch_loop generate_content self style cb total l1 i results w)).
Proof.
  revert i results w. induction l1 as [|u l1 IH]; intros i results w.
  - simpl. by rewrite Z.add_0_r.
  - cbn [app batch_loop List.length].
    destruct (generate_docstring generate_content self w u style) as [r w1].
    rewrite IH. f_equal. lia.
Qed.

Lemma batch_loop_dom self style cb total (fs : list FunctionInfo) i results (w : World) :
  dom (fst (batch_loop generate_content self style cb total fs i results w))
  = dom results ∪ list_to_set (map name fs).
Proof.
  revert i results w. induction fs as [|u fs IH]; intros i results w.
  - simpl. set_solver.
  - cbn [batch_loop map].
    destruct (generate_docstring generate_content self w u style) as [r w1].
    rewrite IH, dom_insert_L, list_to_set_cons. set_solver.
Qed.

Lemma batch_loop_lookup_other self style cb total (fs : list FunctionInfo) i results
    (w : World) (nm : string) :
  nm ∉ map name fs ->
  fst (batch_loop generate_content self style cb total fs i results w) !! nm
  = results !! nm.
Proof.
  revert i results w. induction fs as [|u fs IH]; intros i results w Hnm.
  - reflexivity.
  - cbn [batch_loop map] in *.
    destruct (generate_docstring generate_content self w u style) as [r w1].
    rewrite IH by set_solver. apply lookup_insert_ne. set_solver.
Qed.

Lemma batch_loop_calls self style cb total (fs : list FunctionInfo) i results (w : World) :
  calls (snd (batch_loop generate_content self style cb total fs i results w))
  = (calls w ++ List.concat (map (requests_of self style) fs))%list.
Proof.
  revert i results w. induction fs as [|u fs IH]; intros i results w.
  - simpl. by rewrite app_nil_r.
  - cbn [batch_loop map List.concat].
    pose proof (generate_docstring_calls self w u style) as Hc.
    destruct (generate_docstring generate_content self w u style) as [r w1].
    rewrite IH. cbn [snd] in Hc.
    unfold call_progress. destruct cb; cbn [calls]; rewrite Hc; by rewrite <- app_assoc.
Qed.

Lemma batch_loop_progress self style cb total (fs : list FunctionInfo) i results (w : World) :
  progress (snd (batch_loop generate_content self style cb total fs i results w))
  = (progress w ++ progress_trace cb i total (List.length fs))%list.
Proof.
  revert i results w. induction fs as [|u fs IH]; intros i results w.
  - unfold progress_trace. destruct cb; simpl; by rewrite app_nil_r.
  - cbn [batch_loop List.length].
    pose proof (generate_docstring_progress self w u style) as Hp.
    destruct (generate_docstring generate_content self w u style) as [r w1].
    rewrite IH. cbn [snd] in Hp. unfold progress_trace, call_progress.
    destruct cb; cbn [progress]; rewrite Hp; [|reflexivity].
    rewrite <- app_assoc. f_equal. cbn [seq map app].
    rewrite <- (seq_shift (List.length fs) 1), map_map. f_equal.
    apply map_ext. intros k. f_equal. lia.
Qed.

End WithService.

Lemma size_list_to_set_le (l : list string) :
  (size (list_to_set l : gset string) <= List.length l)%nat.
Proof.
  induction l as [|x l IH]; [by rewrite list_to_set_nil, size_empty|].
  rewrite list_to_set_cons. cbn [List.length].
  pose proof (size_union_alt {[x]} (list_to_set l : gset string)) as Hu.
  rewrite size_singleton in Hu.
  pose proof (subseteq_size (list_to_set l ∖ {[x]}) (list_to_set l : gset string)) as Hs.
  assert ((list_to_set l ∖ {[x]} : gset string) ⊆ list_to_set l) by set_solver.
  specialize (Hs H). lia.
Qed.

Lemma size_list_to_set_eq_NoDup (l : list string) :
  size (list_to_set l : gset string) = List.length l <-> NoDup l.
Proof.
  split; [|apply size_list_to_set].
  induction l as [|x l IH]; intros Hsz; [constructor|].
  rewrite list_to_set_cons in Hsz. cbn [List.length] in Hsz.
  pose proof (size_list_to_set_le l) as Hle.
  destruct (decide (x ∈ l)) as [Hin|Hnin].
  - exfalso.
    assert (({[x]} ∪ list_to_set l : gset string) = list_to_set l) as Heq by set_solver.
    rewrite Heq in Hsz. lia.
  - constructor; [exact Hnin|]. apply IH.
    rewrite size_union in Hsz by set_solver.
    rewrite size_singleton in Hsz. lia.
Qed.

Lemma no_credential_result_witness :
  model keyless_generator = None
  /\ generate_docstring (constant_service "x") keyless_generator empty_world unit_f "Google"
     = (no_key_result, empty_world)
  /\ no_key_result !! "status" = None.
Proof.
  split; [reflexivity|].
  pose proof (no_credential_result (constant_service "x") keyless_generator
                empty_world unit_f "Google" eq_refl) as H.
  split; apply H.
Defined.

(** C9. The prompt builder is deterministic and reads no hidden state: for
    equal units and equal styles the request text is the same text, and it
    is that text which reaches the service, whatever the generator object,
    the service and the history of earlier requests in either run. *)
Theorem prompt_deterministic {Svc1 Svc2 : Type}
    (service1 : Svc1 -> string -> Svc1 * (exn + string))
    (service2 : Svc2 -> string -> Svc2 * (exn + string))
    (self1 self2 : DocstringGenerator) (w1 : @World Svc1) (w2 : @World Svc2)
    (u1 u2 : FunctionInfo) (style1 style2 : string) (m1 m2 : string) :
  model self1 = Some m1 -> model self2 = Some m2 ->
  u1 = u2 -> style1 = style2 ->
  truthy_opt (existing_docstring u1) = false ->
  _create_prompt u1 style1 = _create_prompt u2 style2
  /\ exists request,
       calls (snd (generate_docstring service1 self1 w1 u1 style1))
       = (calls w1 ++ [request])%list
       /\ calls (snd (generate_docstring service2 self2 w2 u2 style2))
          = (calls w2 ++ [request])%list.
Proof.
  intros H1 H2 <- <- Hd. split; [reflexivity|].
  exists (_create_prompt u1 style1). split.
  - exact (request_is_prompt service1 self1 w1 u1 style1 m1 H1 Hd).
  - exact (request_is_prompt service2 self2 w2 u1 style1 m2 H2 Hd).
Qed.

Lemma prompt_deterministic_witness :
  _create_prompt unit_f "NumPy" = _create_prompt unit_f "NumPy"
  /\ exists request,
       calls (snd (generate_docstring (constant_service "x") keyed_generator
                     empty_world unit_f "NumPy")) = ([] ++ [request])%list
       /\ calls (snd (generate_docstring (failing_service "timeout")
                        (__init__ (Some "env-key") None)
                        {| svc := tt; calls := ["earlier"]; progress := [] |}
                        unit_f "NumPy")) = (["earlier"] ++ [request])%list.
Proof.
  exact (prompt_deterministic (constant_service "x") (failing_service "timeout")
           keyed_generator (__init__ (Some "env-key") None)
           empty_world {| svc := tt; calls := ["earlier"]; progress := [] |}
           unit_f unit_f "NumPy" "NumPy" GEMINI_MODEL GEMINI_MODEL
           eq_refl eq_refl eq_refl eq_refl eq_refl).
Defined.

(** C8. The mapping returned by [generate_batch] has at most as many entries
    as there are units, and exactly as many if and only if no two units
    share a name; the entry of a name is the result of the LAST unit with
    that name, computed in the world that the units before it left behind;
    the requests reach the service in input order, and the callback is
    called with 1, 2, ..., n after each unit in turn. *)
Theorem generate_batch_mapping {Svc : Type}
    (generate_content : Svc -> string -> Svc * (exn + string))
    (self : DocstringGenerator) (w : World) (functions : list FunctionInfo)
    (style : string) (progress_callback : bool) :
  let out := generate_batch generate_content self w functions style progress_callback in
  let total := Z.of_nat (List.length functions) in
  (size (fst out) <= List.length functions)%nat
  /\ (size (fst out) = List.length functions <-> NoDup (map name functions))
  /\ (forall l1 u l2, functions = (l1 ++ u :: l2)%list -> name u ∉ map name l2 ->
        let before :=
          batch_loop generate_content self style progress_callback total l1 0 ∅ w in
        fst out !! name u
        = Some (fst (generate_docstring generate_content self (snd before) u style)))
  /\ calls (snd out) = (calls w ++ List.concat (map (requests_of self style) functions))%list
  /\ progress (snd out)
     = (progress w ++ progress_trace progress_callback 0 total (List.length functions))%list.
Proof.
  cbn zeta. unfold generate_batch.
  assert (Hsize : size (fst (batch_loop generate_content self style progress_callback
                               (Z.of_nat (List.length functions)) functions 0 ∅ w))
                  = size (list_to_set (map name functions) : gset string)).
  { rewrite <- size_dom, batch_loop_dom, dom_empty_L. f_equal. set_solver. }
  split_and!.
  - rewrite Hsize. rewrite <- (length_map name functions). apply size_list_to_set_le.
  - rewrite Hsize. rewrite <- (length_map name functions). apply size_list_to_set_eq_NoDup.
  - intros l1 u l2 -> Hlast.
    rewrite batch_loop_app. cbn [batch_loop].
    destruct (generate_docstring generate_content self _ u style) as [r w1] eqn:Hg.
    rewrite batch_loop_lookup_other by exact Hlast.
    rewrite lookup_insert_eq. reflexivity.
  - apply batch_loop_calls.
  - apply batch_loop_progress.
Qed.

Lemma generate_batch_mapping_witness :
  let functions := [unit_f; unit_g; unit_f2] in
  let out := generate_batch (constant_service "Fine.") keyed_generator empty_world
               functions "Google" true in
  (size (fst out) <= 3)%nat
  /\ fst out !! "f"
     = Some (fst (generate_docstring (constant_service "Fine.") keyed_generator
                    (snd (batch_loop (constant_service "Fine.") keyed_generator "Google"
                            true 3 [unit_f; unit_g] 0 ∅ empty_world))
                    unit_f2 "Google"))
  /\ progress (snd out) = [(1, 3); (2, 3); (3, 3)].
Proof.
  pose proof (generate_batch_mapping (constant_service "Fine.") keyed_generator
                empty_world [unit_f; unit_g; unit_f2] "Google" true) as H.
  cbn zeta in H. destruct H as (Hle & _ & Hlast & _ & Hprog).
  cbn zeta. split_and!.
  - exact Hle.
  - apply (Hlast [unit_f; unit_g] unit_f2 []); [reflexivity|]. cbn. apply not_elem_of_nil.
  - exact Hprog.
Defined.

(** Two units named [f]: the mapping has two entries for three units, and
    the entry of [f] was made from the prompt of the later unit. *)
Example batch_collision :
  let out := generate_batch (constant_service "Fine.") keyed_generator empty_world
               [unit_f; unit_g; unit_f2] "Google" false in
  size (fst out) = 2%nat
  /\ calls (snd out) = [_create_prompt unit_f "Google"; _create_prompt unit_f2 "Google"]
  /\ (fst out !! "g") ≫= (.!! "status") = Some (PStr "existing")
  /\ (fst out !! "f") ≫= (.!! "status") = Some (PStr "generated").
Proof. vm_compute. split_and!; reflexivity. Qed.

(** With no key every entry lacks a status and no request is sent. *)
Example batch_without_key :
  let out := generate_batch (constant_service "Fine.") keyless_generator empty_world
               [unit_f; unit_g] "Google" false in
  calls (snd out) = []
  /\ fst out !! "f" = Some no_key_result
  /\ fst out !! "g" = Some no_key_result
  /\ (fst out !! "f") ≫= (.!! "status") = None.
Proof. vm_compute. split_and!; reflexivity. Qed.

End GeneratorProps.

(** ** Facts about the string primitives *)

Module StrProps.
Import PyStr Statements.

Lemma append_cons (c : ascii) (s t : string) : String c s ++ t = String c (s ++ t).
Proof. reflexivity. Qed.

Lemma append_nil_l (t : string) : "" ++ t = t.
Proof. reflexivity. Qed.

Lemma append_nil_r (s : string) : s ++ "" = s.
Proof. induction s as [|c s IH]; [reflexivity | by rewrite append_cons, IH]. Qed.

Lemma append_assoc (a b c : string) : (a ++ b) ++ c = a ++ (b ++ c).
Proof. induction a as [|x a IH]; [reflexivity | by rewrite !append_cons, IH]. Qed.

Lemma prefix_app (p s t : string) :
  String.prefix p s = true -> String.prefix p (s ++ t) = true.
Proof.
  revert p. induction s as [|c s IH]; intros [|a p]; rewrite ?append_cons, ?append_nil_l;
    simpl; try done.
  - by destruct t.
  - destruct (ascii_dec a c); [apply IH | done].
Qed.

Lemma contains_app (p s t : string) :
  contains p s = true -> contains p (s ++ t) = true.
Proof.
  induction s as [|c s IH].
  - rewrite append_nil_l. simpl. rewrite orb_false_r. intros H.
    destruct p; [|discriminate]. by destruct t.
  - rewrite append_cons. cbn [contains]. intros [H|H]%orb_true_iff.
    + apply orb_true_iff. left. rewrite <- append_cons. by apply prefix_app.
    + apply orb_true_iff. right. by apply IH.
Qed.

Lemma prefix_contains (p s : string) : String.prefix p s = true -> contains p s = true.
Proof. intros H. destruct s; simpl in *; rewrite H; reflexivity. Qed.

Lemma contains_cons (p : string) (c : ascii) (s : string) :
  contains p s = true -> contains p (String c s) = true.
Proof. intros H. cbn [contains]. rewrite H. apply orb_true_r. Qed.

Lemma lstrip_contains (p s : string) :
  String.prefix p (lstrip s) = true -> contains p s = true.
Proof.
  induction s as [|c s IH]; cbn [lstrip].
  - apply prefix_contains.
  - destruct (isspace c).
    + intros H. apply contains_cons. by apply IH.
    + apply prefix_contains.
Qed.

Lemma rstrip_prefix (s : string) : exists t, s = rstrip s ++ t.
Proof.
  induction s as [|c s [t IH]]; [by exists ""|].
  cbn [rstrip]. destruct (rstrip s) as [|a r'] eqn:Hr.
  - destruct (isspace c).
    + by exists (String c s).
    + exists t. rewrite append_nil_l in IH. by rewrite append_cons, append_nil_l, <- IH.
  - exists t. by rewrite append_cons, <- IH.
Qed.

(** A line whose stripped text starts with [p] contains [p]. *)
Lemma strip_startswith_contains (p line : string) :
  startswith p (strip line) = true -> contains p line = true.
Proof.
  unfold startswith, strip. intros H%lstrip_contains.
  destruct (rstrip_prefix line) as [t Ht]. rewrite Ht. by apply contains_app.
Qed.

Lemma split_go_nonempty (sep : string) (skip : nat) (cur s : string) :
  split_go sep skip cur s <> [].
Proof.
  revert skip cur. induction s as [|c s IH]; intros skip cur; cbn [split_go]; [done|].
  destruct skip; [|apply IH]. destruct (String.prefix sep (String c s)); [done | apply IH].
Qed.

Lemma split_nonempty (sep s : string) : (1 <= List.length (split sep s))%nat.
Proof.
  unfold split. pose proof (split_go_nonempty sep 0 "" s).
  destruct (split_go sep 0 "" s); [done | simpl; lia].
Qed.

(** A text that contains the separator splits into two parts at least. *)
Lemma split_go_contains (sep cur s : string) :
  sep <> "" -> contains sep s = true ->
  (2 <= List.length (split_go sep 0 cur s))%nat.
Proof.
  intros Hsep. revert cur. induction s as [|c s IH]; intros cur.
  - simpl. destruct sep; [done | discriminate].
  - cbn [contains split_go]. destruct (String.prefix sep (String c s)) eqn:Hp.
    + intros _. pose proof (split_go_nonempty sep (String.length sep - 1) "" s).
      destruct (split_go sep (String.length sep - 1) "" s); [done | simpl; lia].
    + simpl. apply IH.
Qed.

Lemma split_contains (sep s : string) :
  sep <> "" -> contains sep s = true -> (2 <= List.length (split sep s))%nat.
Proof. intros. by apply split_go_contains. Qed.

(** *** One-character separators *)

Lemma has_char_app (c : ascii) (s t : string) :
  has_char c (s ++ t) = has_char c s || has_char c t.
Proof.
  induction s as [|a s IH]; [done|].
  rewrite append_cons. cbn [has_char]. by rewrite IH, orb_assoc.
Qed.

Lemma has_char_spaces (c : ascii) (n : nat) : c <> " "%char -> has_char c (spaces n) = false.
Proof.
  intros Hc. induction n as [|n IH]; simpl; [done|].
  rewrite IH, orb_false_r. apply bool_decide_eq_false. congruence.
Qed.

Lemma prefix_char (c a : ascii) (s : string) :
  String.prefix (String c "") (String a s) = bool_decide (c = a).
Proof.
  simpl. destruct (ascii_dec c a) as [->|Hne].
  - rewrite bool_decide_eq_true_2 by done. by destruct s.
  - by rewrite bool_decide_eq_false_2.
Qed.

Lemma split_go_char_step (c a : ascii) (cur s : string) :
  split_go (String c "") 0 cur (String a s)
  = if bool_decide (c = a)
    then cur :: split_go (String c "") 0 "" s
    else split_go (String c "") 0 (cur ++ String a "") s.
Proof. cbn [split_go]. rewrite prefix_char. reflexivity. Qed.

(** [sep.join(s.split(sep)) == s] *)
Lemma join_split_go (c : ascii) (cur s : string) :
  join (String c "") (split_go (String c "") 0 cur s) = cur ++ s.
Proof.
  revert cur. induction s as [|a s IH]; intros cur.
  - cbn [split_go join]. by rewrite append_nil_r.
  - rewrite split_go_char_step. case_bool_decide as Hc.
    + subst a. specialize (IH "").
      pose proof (split_go_nonempty (String c "") 0 "" s) as Hne.
      destruct (split_go (String c "") 0 "" s) as [|x l]; [done|].
      cbn [join]. cbn [join] in IH. rewrite IH. reflexivity.
    + rewrite IH, append_assoc. reflexivity.
Qed.

Lemma join_split (c : ascii) (s : string) :
  join (String c "") (split (String c "") s) = s.
Proof. unfold split. by rewrite join_split_go. Qed.

(** The parts of a split hold no separator. *)
Lemma split_go_no_char (c : ascii) (cur s : string) :
  has_char c cur = false ->
  Forall (fun part => has_char c part = false) (split_go (String c "") 0 cur s).
Proof.
  revert cur. induction s as [|a s IH]; intros cur Hcur.
  - by constructor.
  - rewrite split_go_char_step. case_bool_decide as Hc.
    + constructor; [done | by apply IH].
    + apply IH. rewrite has_char_app, Hcur. simpl.
      rewrite orb_false_r. apply bool_decide_eq_false. congruence.
Qed.

Lemma split_no_char (c : ascii) (s : string) :
  Forall (fun part => has_char c part = false) (split (String c "") s).
Proof. by apply split_go_no_char. Qed.

Lemma split_go_app_no_char (c : ascii) (cur x s : string) :
  has_char c x = false ->
  split_go (String c "") 0 cur (x ++ s) = split_go (String c "") 0 (cur ++ x) s.
Proof.
  revert cur. induction x as [|a x IH]; intros cur Hx.
  - by rewrite append_nil_r.
  - simpl in Hx. apply orb_false_iff in Hx as [Ha Hx].
    apply bool_decide_eq_false in Ha.
    change (String a x ++ s) with (String a (x ++ s)).
    rewrite split_go_char_step, bool_decide_eq_false_2 by congruence.
    rewrite IH by done. by rewrite append_assoc.
Qed.

(** [sep.join(l).split(sep) == l] when no element of [l] holds the
    separator and [l] is not empty. *)
Lemma split_go_join (c : ascii) (cur x : string) (l : list string) :
  Forall (fun part => has_char c part = false) (x :: l) ->
  split_go (String c "") 0 cur (join (String c "") (x :: l)) = (cur ++ x) :: l.
Proof.
  revert cur x. induction l as [|y l IH]; intros cur x Hall.
  - cbn [join]. inversion_clear Hall as [|? ? Hx _].
    rewrite <- (append_nil_r x) at 1.
    by rewrite split_go_app_no_char.
  - inversion_clear Hall as [|? ? Hx Hl].
    change (join (String c "") (x :: y :: l))
      with (x ++ String c (join (String c "") (y :: l))).
    rewrite split_go_app_no_char by done.
    rewrite split_go_char_step, bool_decide_eq_true_2 by done.
    by rewrite IH.
Qed.

Lemma split_join (c : ascii) (l : list string) :
  l <> [] -> Forall (fun part => has_char c part = false) l ->
  split (String c "") (join (String c "") l) = l.
Proof.
  intros Hne Hall. destruct l as [|x l]; [done|].
  unfold split. by rewrite split_go_join.
Qed.

End StrProps.

(** ** The style validator *)

Module ValidatorProps.
Import PyStr StrProps Validator Statements.

(** *** Splicing *)

(** The subscripts of the name extraction are in range on every line that
    the loop sends there. *)
Lemma extract_name_returns (line : string) :
  startswith "def " (strip line) = true ->
  exists nm, extract_name line = inr nm.
Proof.
  intros H%strip_startswith_contains. unfold extract_name.
  destruct (ParseResponseProps.py_index_lt (split "def " line) 1) as [after_def ->].
  { pose proof (split_contains "def " line). naive_solver lia. }
  cbn [bind_exn].
  destruct (ParseResponseProps.py_index_lt (split "(" after_def) 0) as [before_paren ->].
  { pose proof (split_nonempty "(" after_def). lia. }
  cbn [bind_exn]. eauto.
Qed.

(** What the loop body adds: nothing, or the block of a text that the
    mapping holds for the name on a definition line. *)
Lemma docstring_block_inr (line : string) docstrings (block : list string) :
  docstring_block line docstrings = inr block ->
  block = [] \/
  (startswith "def " (strip line) = true
   /\ exists nm result d,
        extract_name line = inr nm /\ docstrings !! nm = Some result
        /\ result !! "docstring" = Some (PStr d) /\ d <> ""
        /\ block = block_for line d).
Proof.
  unfold docstring_block.
  destruct (startswith "def " (strip line)) eqn:Hdef; [|intros [= <-]; by left].
  destruct (extract_name line) as [e|nm] eqn:Hname; [done|]. cbn [bind_exn].
  destruct (docstrings !! nm) as [result|] eqn:Hlook; [|intros [= <-]; by left].
  destruct (result !! "docstring") as [[|d|l]|] eqn:Hdoc; cbn.
  - intros [= <-]; by left.
  - destruct (String.eqb_spec d "") as [->|Hd]; cbn; intros [= <-]; [by left|].
    right. split; [done|]. exists nm, result, d. by split_and!.
  - destruct l; [intros [= <-]; by left | done].
  - cbn. intros [= <-]; by left.
Qed.

Lemma docstring_block_returns (line : string) docstrings :
  docs_texts docstrings ->
  docstring_block line docstrings = inr (inserted_after docstrings line).
Proof.
  intros Htexts. unfold inserted_after.
  destruct (docstring_block line docstrings) as [e|block] eqn:Hb; [exfalso|done].
  unfold docstring_block in Hb.
  destruct (startswith "def " (strip line)) eqn:Hdef; [|done].
  destruct (extract_name_returns line Hdef) as [nm Hname].
  rewrite Hname in Hb. cbn [bind_exn] in Hb.
  destruct (docstrings !! nm) as [result|] eqn:Hlook; [|done].
  destruct (result !! "docstring") as [v|] eqn:Hdoc; cbn in Hb.
  - destruct (truthy v) eqn:Hv; [|done].
    destruct (Htexts nm result v Hlook Hdoc Hv) as [d ->]. done.
  - done.
Qed.

Lemma insert_loop_returns (lines : list string) docstrings (acc : list string) :
  docs_texts docstrings ->
  insert_loop lines docstrings acc
  = inr (acc ++ flat_map (fun line => line :: inserted_after docstrings line) lines)%list.
Proof.
  intros Htexts. revert acc. induction lines as [|line lines IH]; intros acc.
  - simpl. by rewrite app_nil_r.
  - cbn [insert_loop flat_map]. rewrite docstring_block_returns by done.
    cbn [bind_exn]. rewrite IH. f_equal.
    rewrite <- !app_assoc. reflexivity.
Qed.

Lemma has_nl_block (line : string) docstrings :
  Forall (fun part => has_char (ascii_of_nat 10) part = false)
    (inserted_after docstrings line).
Proof.
  unfold inserted_after.
  destruct (docstring_block line docstrings) as [e|block] eqn:Hb; [constructor|].
  apply docstring_block_inr in Hb as [->|(_ & nm & result & d & _ & _ & _ & _ & ->)];
    [constructor|].
  assert (Hind : has_char (ascii_of_nat 10) (indent_of line) = false)
    by (by apply has_char_spaces).
  assert (Hq : has_char (ascii_of_nat 10) (indent_of line ++ triple_dq) = false)
    by (by rewrite has_char_app, Hind).
  unfold block_for. constructor; [done|].
  apply Forall_app. split; [|by repeat constructor].
  apply Forall_map. eapply Forall_impl; [apply (split_no_char (ascii_of_nat 10))|].
  intros part Hpart. simpl. by rewrite has_char_app, Hind, Hpart.
Qed.

Lemma sublist_flat_map_cons {A} (f : A -> list A) (l : list A) :
  sublist l (flat_map (fun x => x :: f x) l).
Proof.
  induction l as [|x l IH]; [constructor|].
  cbn [flat_map]. change (x :: f x ++ _)%list with (x :: (f x ++ flat_map (fun x => x :: f x) l))%list.
  apply sublist_skip. by apply sublist_inserts_l.
Qed.

Lemma flat_map_no_insert {A} (f : A -> list A) (l : list A) :
  (forall x, x ∈ l -> f x = []) -> flat_map (fun x => x :: f x) l = l.
Proof.
  induction l as [|x l IH]; intros H; [done|].
  cbn [flat_map]. rewrite (H x) by set_solver. simpl. f_equal. apply IH.
  intros y Hy. apply H. set_solver.
Qed.

(** C10. Splicing only inserts.  For every source text and every mapping
    whose documentation entries are texts, [_insert_docstrings] returns a
    text whose lines are the lines of the source, each followed by the
    lines inserted after it: the source lines are all there, unchanged and
    in their order; lines are inserted only after a line whose stripped
    text starts with [def ] and whose extracted name is a key of the mapping
    with a non-empty documentation text, and they are that text between
    two triple-quote lines, all indented; and when no line is such a line
    the output is the input. *)
Theorem insert_docstrings_insertion_only (source_code : string)
    (docstrings : gmap string (gmap string pyval)) :
  docs_texts docstrings ->
  exists merged,
    _insert_docstrings source_code docstrings = inr merged
    /\ split nl merged
       = flat_map (fun line => line :: inserted_after docstrings line) (split nl source_code)
    /\ sublist (split nl source_code) (split nl merged)
    /\ (forall line, inserted_after docstrings line <> [] ->
          startswith "def " (strip line) = true
          /\ exists nm result d,
               extract_name line = inr nm /\ docstrings !! nm = Some result
               /\ result !! "docstring" = Some (PStr d) /\ d <> ""
               /\ inserted_after docstrings line = block_for line d)
    /\ ((forall line, line ∈ split nl source_code -> inserted_after docstrings line = [])
        -> merged = source_code).
Proof.
  intros Htexts. unfold _insert_docstrings.
  rewrite insert_loop_returns by done. cbn [bind_exn app].
  eexists. split; [reflexivity|].
  assert (Hsplit :
    split nl (join nl (flat_map (fun line => line :: inserted_after docstrings line)
                         (split nl source_code)))
    = flat_map (fun line => line :: inserted_after docstrings line) (split nl source_code)).
  { apply (split_join (ascii_of_nat 10)).
    - pose proof (split_nonempty nl source_code) as Hne.
      destruct (split nl source_code); [simpl in Hne; lia | done].
    - apply Forall_flat_map.
      eapply Forall_impl; [apply (split_no_char (ascii_of_nat 10))|].
      intros line Hline. simpl. constructor; [done | apply has_nl_block]. }
  split_and!.
  - exact Hsplit.
  - rewrite Hsplit. apply sublist_flat_map_cons.
  - intros line Hne. unfold inserted_after in *.
    destruct (docstring_block line docstrings) as [e|block] eqn:Hb; [done|].
    apply docstring_block_inr in Hb as [->|Hb]; [done | exact Hb].
  - intros Hnone. rewrite flat_map_no_insert by done.
    apply (join_split (ascii_of_nat 10)).
Qed.

Lemma docs_f_texts : docs_texts Samples.docs_f.
Proof.
  intros nm result v Hnm Hdoc _. unfold Samples.docs_f in Hnm.
  apply lookup_singleton_Some in Hnm as [_ <-].
  vm_compute in Hdoc. injection Hdoc as <-. eauto.
Defined.

Lemma insert_docstrings_insertion_only_witness :
  exists merged,
    _insert_docstrings Samples.source_f Samples.docs_f = inr merged
    /\ sublist (split nl Samples.source_f) (split nl merged).
Proof.
  destruct (insert_docstrings_insertion_only Samples.source_f Samples.docs_f docs_f_texts)
    as (merged & Hm & _ & Hsub & _).
  exists merged. split; [exact Hm | exact Hsub].
Defined.

Example insert_docstrings_f :
  _insert_docstrings Samples.source_f Samples.docs_f
  = inr (join nl [ "def f(x):";
                   "    " ++ triple_dq;
                   "    Return x.";
                   "    " ++ triple_dq;
                   "    return x" ]).
Proof. vm_compute. reflexivity. Qed.

(** A documentation entry that is a non-empty list makes the splice raise;
    [validate_code] then reports the validation error. *)
Example insert_docstrings_list :
  _insert_docstrings Samples.source_f {[ "f" := {[ "docstring" := PList ["x"] ]} ]}
  = inl "'list' object has no attribute 'split'".
Proof. vm_compute. reflexivity. Qed.

(** *** Classification and counts *)

Lemma in_missing_codes_spec (c : string) :
  in_missing_codes c = true <-> c ∈ missing_codes.
Proof. unfold in_missing_codes. apply bool_decide_eq_true. Qed.

Lemma in_missing_codes_false (c : string) :
  in_missing_codes c = false <-> c ∉ missing_codes.
Proof. unfold in_missing_codes. apply bool_decide_eq_false. Qed.

Lemma categorize_spec (issues : list Issue) (e w : list Finding) :
  categorize issues e w = ((e ++ error_issues issues)%list, (w ++ warning_issues issues)%list).
Proof.
  unfold error_issues, warning_issues.
  revert e w. induction issues as [|i issues IH]; intros e w.
  - simpl. by rewrite !app_nil_r.
  - cbn [categorize List.filter]. destruct (in_missing_codes (i_code i)); cbn [negb map];
      rewrite IH, <- app_assoc; reflexivity.
Qed.

Lemma error_warning_length (issues : list Issue) :
  (List.length (error_issues issues) + List.length (warning_issues issues)
   = List.length issues)%nat.
Proof.
  unfold error_issues, warning_issues. rewrite !length_map.
  induction issues as [|i issues IH]; [done|].
  cbn [List.filter]. destruct (in_missing_codes (i_code i)); simpl; lia.
Qed.

Section WithEngine.

Variable check : string -> exn + list Issue.

Lemma validate_code_cases (self : DocstringValidator) (source_code : string)
    (generated_docstrings : option (gmap string (gmap string pyval))) :
  match engine_report check source_code generated_docstrings with
  | inr issues =>
      exists merged,
        merged_source source_code generated_docstrings = inr merged
        /\ check merged = inr issues
        /\ validate_code check self source_code generated_docstrings
           = (_format_results (validator_after merged issues), validator_after merged issues)
  | inl e =>
      validate_try check self source_code generated_docstrings = inl e
      /\ validate_code check self source_code generated_docstrings = (error_result e, self)
  end.
Proof.
  unfold engine_report, validate_code, validate_try.
  destruct (merged_source source_code generated_docstrings) as [e|merged]; cbn [bind_exn];
    [done|].
  destruct (check merged) as [e|issues] eqn:Hc; cbn [bind_exn]; [done|].
  exists merged. rewrite categorize_spec. cbn [app]. done.
Qed.

(** C4. After every validation pass the error and warning counts of the
    summary add up to [total_issues], the counts are the lengths of the two
    lists, and [compliant] is not negative.  This holds on the failure path
    too, on which [validate_code] does not raise but returns the single
    synthetic finding among the errors, no warning, [compliant = 0] and
    [total_issues = 1], and leaves the validator as it was. *)
Theorem summary_adds_up (self : DocstringValidator) (source_code : string)
    (generated_docstrings : option (gmap string (gmap string pyval))) :
  let r := fst (validate_code check self source_code generated_docstrings) in
  s_errors (summary r) + s_warnings (summary r) = total_issues r
  /\ s_errors (summary r) = Z.of_nat (List.length (errors r))
  /\ s_warnings (summary r) = Z.of_nat (List.length (warnings r))
  /\ 0 <= compliant r
  /\ s_compliant (summary r) = compliant r
  /\ (forall e, validate_try check self source_code generated_docstrings = inl e ->
        validate_code check self source_code generated_docstrings = (error_result e, self)
        /\ errors r = [synthetic e] /\ warnings r = []
        /\ compliant r = 0 /\ total_issues r = 1).
Proof.
  cbn zeta.
  pose proof (validate_code_cases self source_code generated_docstrings) as H.
  destruct (engine_report check source_code generated_docstrings) as [e|issues].
  - destruct H as [Htry Hcode]. rewrite Hcode. cbn. split_and!; try done.
    intros e' He'. rewrite Htry in He'. injection He' as <-. done.
  - destruct H as (merged & Hm & Hc & Hcode). rewrite Hcode. cbn. split_and!; try done.
    + lia.
    + intros e He. unfold validate_code in Hcode. rewrite He in Hcode.
      unfold validate_try in He. rewrite Hm in He. cbn [bind_exn] in He.
      rewrite Hc in He. cbn [bind_exn] in He. by rewrite categorize_spec in He.
Qed.

(** C3, as the code has it.  A finding reported by the rule engine is filed
    under errors if and only if its code is one of D100, D101, D102 and D103,
    and under warnings otherwise, so that its severity depends on its code
    alone; the other missing-documentation codes (D104 to D107) are
    warnings.  On the failure path the only finding is the synthetic one,
    with code ERROR, among the errors. *)
Theorem severity_by_code (self : DocstringValidator) (source_code : string)
    (generated_docstrings : option (gmap string (gmap string pyval))) :
  let r := fst (validate_code check self source_code generated_docstrings) in
  match engine_report check source_code generated_docstrings with
  | inr issues =>
      errors r = error_issues issues
      /\ warnings r = warning_issues issues
      /\ (forall f, f ∈ map issue_dict issues ->
            (f ∈ errors r <-> code f ∈ missing_codes)
            /\ (f ∈ warnings r <-> code f ∉ missing_codes))
      /\ (forall f, f ∈ errors r \/ f ∈ warnings r -> f ∈ map issue_dict issues)
  | inl e => errors r = [synthetic e] /\ warnings r = []
  end.
Proof.
  cbn zeta.
  pose proof (validate_code_cases self source_code generated_docstrings) as H.
  destruct (engine_report check source_code generated_docstrings) as [e|issues].
  - destruct H as [_ ->]. done.
  - destruct H as (merged & _ & _ & ->). cbn [fst _format_results errors warnings validator_after
                                               self_errors self_warnings].
    unfold error_issues, warning_issues.
    split_and!; try reflexivity.
    + intros f Hf. apply list_elem_of_In, in_map_iff in Hf as (i & <- & Hi).
      rewrite <- in_missing_codes_false, <- in_missing_codes_spec.
      change (code (issue_dict i)) with (i_code i).
      rewrite !list_elem_of_In, !in_map_iff. split; split.
      * intros (j & Hj & [_ Hcode]%filter_In).
        assert (Heq : i_code j = i_code i) by exact (f_equal code Hj).
        by rewrite <- Heq.
      * intros Hcode. exists i. split; [done|]. by apply filter_In.
      * intros (j & Hj & [_ Hcode]%filter_In).
        assert (Heq : i_code j = i_code i) by exact (f_equal code Hj).
        apply negb_true_iff in Hcode. by rewrite <- Heq.
      * intros Hcode. exists i. split; [done|]. apply filter_In.
        split; [done | by apply negb_true_iff].
    + intros f [Hf|Hf]; apply list_elem_of_In, in_map_iff in Hf as (i & <- & [Hi _]%filter_In);
        apply list_elem_of_In, in_map; exact Hi.
Qed.

(** C5, as the code has it.  After a pass that the rule engine completes,
    [compliant] is the larger of 0 and the number of occurrences of the text
    [def ] in the merged source less the number of error findings; after a
    pass that fails it is 0. *)
Theorem compliant_count_formula (self : DocstringValidator) (source_code : string)
    (generated_docstrings : option (gmap string (gmap string pyval))) :
  let r := fst (validate_code check self source_code generated_docstrings) in
  match engine_report check source_code generated_docstrings with
  | inr issues =>
      exists merged,
        merged_source source_code generated_docstrings = inr merged
        /\ compliant r
           = Z.max 0 (count "def " merged - Z.of_nat (List.length (errors r)))
        /\ compliant_count (snd (validate_code check self source_code generated_docstrings))
           = compliant r
  | inl _ => compliant r = 0
  end.
Proof.
  cbn zeta.
  pose proof (validate_code_cases self source_code generated_docstrings) as H.
  destruct (engine_report check source_code generated_docstrings) as [e|issues].
  - destruct H as [_ ->]. done.
  - destruct H as (merged & Hm & _ & ->). exists merged. done.
Qed.

End WithEngine.

Lemma summary_adds_up_witness :
  let check := fun _ : string => inl "disk full" : exn + list Issue in
  let r := fst (validate_code check new_validator Samples.source_f None) in
  s_errors (summary r) + s_warnings (summary r) = total_issues r
  /\ errors r = [synthetic "disk full"]
  /\ compliant r = 0.
Proof.
  cbn zeta.
  pose proof (summary_adds_up (fun _ : string => inl "disk full")
                new_validator Samples.source_f None) as H.
  cbn zeta in H. destruct H as (Hsum & _ & _ & _ & _ & Hfail).
  destruct (Hfail "disk full" eq_refl) as (_ & He & _ & Hc & _).
  split_and!; [exact Hsum | exact He | exact Hc].
Defined.

(** The scenario of the specification: the bare source of [f] with the
    missing-documentation findings that pydocstyle reports for it. *)
Example validate_bare_source :
  let check := fun _ : string =>
    inr [ {| i_code := "D100"; i_message := "Missing docstring in public module";
             i_line := 1; i_definition := Some "at module level" |};
          {| i_code := "D103"; i_message := "Missing docstring in public function";
             i_line := 1; i_definition := Some "in public function `f`" |} ] in
  let r := fst (validate_code check new_validator Samples.source_f None) in
  map code (errors r) = ["D100"; "D103"] /\ warnings r = []
  /\ compliant r = 0 /\ total_issues r = 2.
Proof. vm_compute. split_and!; reflexivity. Qed.

(** *** The claims as the specification words them *)

(** C3 as stated fails: the missing-documentation finding D107 of an
    undocumented [__init__] is filed under warnings. *)
Lemma severity_D1xx_counterexample :
  ~ severity_is_D1xx Samples.check_init new_validator Samples.source_init None.
Proof.
  unfold severity_is_D1xx. cbn zeta. intros H.
  assert (Hw : warnings (fst (validate_code Samples.check_init new_validator
                                Samples.source_init None))
               = [issue_dict Samples.issue_D107]) by (vm_compute; reflexivity).
  rewrite Hw in H.
  destruct (H (issue_dict Samples.issue_D107)) as [_ [Hfalse _]].
  - right. apply list_elem_of_here.
  - specialize (Hfalse (list_elem_of_here _ _)). vm_compute in Hfalse. discriminate.
Qed.

(** The helper of [utils/helpers.py] follows another table: it colours the
    whole D1xx group and the D4xx group as errors. *)
Example severity_color_differs :
  get_severity_color "D107" = "error" /\ status_severity "D107" = "warning"
  /\ get_severity_color "D400" = "error" /\ status_severity "D400" = "warning"
  /\ get_severity_color "D205" = "warning" /\ status_severity "D103" = "error".
Proof. vm_compute. split_and!; reflexivity. Qed.

(** C5 as stated fails: a documented module without any definition, whose
    comment mentions [def ], counts one compliant unit. *)
Lemma compliant_units_counterexample :
  ~ compliant_from_units (Parser.parser_at Samples.source_comment Samples.tree_comment)
      Samples.check_clean new_validator Samples.source_comment None.
Proof.
  unfold compliant_from_units. cbn zeta. intros H.
  specialize (H Samples.source_comment eq_refl).
  vm_compute in H. discriminate.
Qed.

Example compliant_units_values :
  compliant (fst (validate_code Samples.check_clean new_validator Samples.source_comment None)) = 1
  /\ total_definable_units (Parser.parser_at Samples.source_comment Samples.tree_comment)
       Samples.source_comment = 0
  /\ count "def " Samples.source_comment = 1.
Proof. vm_compute. split_and!; reflexivity. Qed.

End ValidatorProps.

(** ** The unit extractor *)

Module ParserProps.
Import Parser Statements.

Lemma preorder_eq (k : node_kind) (c : list node) :
  preorder (Node k c) = Node k c :: flat_map preorder c.
Proof. reflexivity. Qed.

Lemma preorder_children (n : node) :
  preorder n = n :: flat_map preorder (children_of n).
Proof. destruct n as [k c]. apply preorder_eq. Qed.

Lemma walk_queue_cons (n : node) (rest : list node) :
  walk_queue (n :: rest) = n :: walk_queue (rest ++ children_of n).
Proof. by simp walk_queue. Qed.

(** [ast.walk] yields every node of the tree exactly once. *)
Lemma walk_queue_perm (todo : list node) :
  walk_queue todo ≡ₚ flat_map preorder todo.
Proof.
  funelim (walk_queue todo); [reflexivity|].
  cbn [flat_map]. rewrite preorder_children. cbn [app]. constructor.
  match goal with IH : walk_queue _ ≡ₚ _ |- _ => rewrite IH end.
  rewrite flat_map_app. apply Permutation_app_comm.
Qed.

(** [ast.walk] is breadth first: the queue comes out first and in order,
    then the children of its nodes. *)
Lemma walk_queue_app (a b : list node) :
  walk_queue (a ++ b) = (a ++ walk_queue (b ++ flat_map children_of a))%list.
Proof.
  revert b. induction a as [|x a IH]; intros b.
  - cbn. by rewrite app_nil_r.
  - cbn [app flat_map]. rewrite walk_queue_cons, <- app_assoc, IH.
    by rewrite <- app_assoc.
Qed.

Lemma walk_queue_levels (todo : list node) :
  walk_queue todo = (todo ++ walk_queue (flat_map children_of todo))%list.
Proof. rewrite <- (app_nil_r todo) at 1. by rewrite walk_queue_app. Qed.

Lemma extract_loop_spec (nodes : list node) (source_code : string)
    (acc : list FunctionInfo) :
  extract_loop nodes source_code acc = (acc ++ omap (record_of source_code) nodes)%list.
Proof.
  revert acc. induction nodes as [|n nodes IH]; intros acc.
  - cbn. by rewrite app_nil_r.
  - cbn [extract_loop omap list_omap]. unfold record_of at 1.
    destruct (kind_of n); rewrite IH; [by rewrite <- app_assoc | done..].
Qed.

Lemma omap_record_none (source_code : string) (l : list node) :
  (forall n, n ∈ l -> is_FunctionDef n = false) ->
  omap (record_of source_code) l = [].
Proof.
  induction l as [|n l IH]; intros H; [done|].
  cbn [omap list_omap]. pose proof (H n (list_elem_of_here _ _)) as Hn.
  unfold is_FunctionDef in Hn. unfold record_of at 1.
  destruct (kind_of n); [done | apply IH; intros; apply H; by constructor ..].
Qed.

(** Where no definition lies below the nodes of [cs], the records of [cs]
    are the records of everything under [cs]. *)
Lemma omap_record_flat (source_code : string) (cs : list node) :
  (forall c n, c ∈ cs -> n ∈ flat_map preorder (children_of c) ->
     is_FunctionDef n = false) ->
  omap (record_of source_code) cs
  = omap (record_of source_code) (flat_map preorder cs).
Proof.
  induction cs as [|c cs IH]; intros Hflat; [done|].
  cbn [flat_map]. rewrite preorder_children.
  change (c :: ?l)%list with ([c] ++ l)%list.
  rewrite <- !app_assoc, !omap_app.
  rewrite (omap_record_none source_code (flat_map preorder (children_of c))).
  - cbn [app]. rewrite <- IH; [done|].
    intros c' n Hc' Hn. apply (Hflat c' n); [by constructor | done].
  - intros n Hn. apply (Hflat c n); [by constructor | done].
Qed.

Lemma omap_record_length (source_code : string) (l : list node) :
  List.length (omap (record_of source_code) l)
  = List.length (List.filter is_FunctionDef l).
Proof.
  induction l as [|n l IH]; [done|].
  cbn [omap list_omap List.filter]. unfold record_of at 1, is_FunctionDef at 1.
  destruct (kind_of n); simpl; by rewrite IH.
Qed.

Lemma parse_code_functions (ast_parse : string -> parse_failure + node)
    (self : CodeParser) (source_code : string) (tree : node) :
  ast_parse source_code = inr tree ->
  parse_code ast_parse self source_code
  = (omap (record_of source_code) (walk tree),
     {| functions := omap (record_of source_code) (walk tree);
        errors := []; accuracy := 100 |}).
Proof.
  intros Hp. unfold parse_code. rewrite Hp. unfold _extract_functions.
  cbn [functions errors accuracy]. rewrite extract_loop_spec. reflexivity.
Qed.

(** A text that does not parse gives no record and accuracy 0. *)
Lemma parse_code_syntax_error (ast_parse : string -> parse_failure + node)
    (self : CodeParser) (source_code : string) (e : string) :
  ast_parse source_code = inl (SyntaxError e) ->
  fst (parse_code ast_parse self source_code) = []
  /\ accuracy (snd (parse_code ast_parse self source_code)) = 0.
Proof. intros Hp. unfold parse_code. rewrite Hp. done. Qed.

(** C6 as stated fails: the function [b] nested in [a] on line 2 is
    recorded after the function [c] of line 4. *)
Lemma document_order_counterexample :
  ~ records_in_document_order
      (parser_at Samples.source_nested Samples.tree_nested)
      Samples.source_nested Samples.tree_nested.
Proof.
  unfold records_in_document_order. intros H. specialize (H eq_refl).
  rewrite (parse_code_functions (parser_at Samples.source_nested Samples.tree_nested)
             new_parser Samples.source_nested Samples.tree_nested eq_refl) in H.
  cbn [fst] in H. unfold walk, Samples.tree_nested in H.
  repeat (rewrite walk_queue_cons in H; cbn [children_of app] in H).
  apply (f_equal (map lineno)) in H. vm_compute in H. discriminate.
Qed.

Example nested_extraction :
  let fns := fst (parse_code (parser_at Samples.source_nested Samples.tree_nested)
                    new_parser Samples.source_nested) in
  map name fns = ["a"; "c"; "b"] /\ map lineno fns = [1; 4; 2]
  /\ map name (omap (record_of Samples.source_nested) (preorder Samples.tree_nested))
     = ["a"; "b"; "c"]
  /\ map body fns
     = [ "def a():" ++ nl ++ "    def b():" ++ nl ++ "        pass";
         "def c():" ++ nl ++ "    pass";
         "    def b():" ++ nl ++ "        pass" ].
Proof.
  cbn zeta.
  rewrite (parse_code_functions (parser_at Samples.source_nested Samples.tree_nested)
             new_parser Samples.source_nested Samples.tree_nested eq_refl).
  cbn [fst]. unfold walk, Samples.tree_nested.
  repeat (rewrite walk_queue_cons; cbn [children_of app]).
  simp walk_queue. vm_compute. split_and!; reflexivity.
Qed.

(** Only [FunctionDef] nodes give a record: an [async def] and a class give
    none. *)
Example async_and_class_give_no_record :
  fst (parse_code
         (fun _ => inr (Node OtherNode
                          [ Node (AsyncFunctionDef Samples.fd_a) [Samples.leaf; Samples.leaf];
                            Node (ClassDef "A") [Samples.leaf] ]))
         new_parser ("async def a():" ++ nl ++ "    pass" ++ nl ++ "class A:" ++ nl ++ "    pass"))
  = [].
Proof.
  rewrite (parse_code_functions
             (fun _ => inr (Node OtherNode
                              [ Node (AsyncFunctionDef Samples.fd_a) [Samples.leaf; Samples.leaf];
                                Node (ClassDef "A") [Samples.leaf] ]))
             new_parser _ _ eq_refl).
  cbn [fst]. unfold walk.
  repeat (rewrite walk_queue_cons; cbn [children_of app Samples.leaf]).
  simp walk_queue. reflexivity.
Qed.

(** C6, as the code has it.  For a source text that parses, the extractor
    makes exactly one record for each [FunctionDef] node of the tree, nested
    ones included, and none for any other node; the records come in the
    order of [ast.walk], which is breadth first: a queue of nodes comes out
    in order before any of their children.  When no function definition
    lies below a child of the root, that order is the document order. *)
Theorem extraction_records (ast_parse : string -> parse_failure + node)
    (self : CodeParser) (source_code : string) (tree : node) :
  ast_parse source_code = inr tree ->
  let fns := fst (parse_code ast_parse self source_code) in
  fns = omap (record_of source_code) (walk tree)
  /\ fns ≡ₚ omap (record_of source_code) (preorder tree)
  /\ List.length fns = List.length (List.filter is_FunctionDef (preorder tree))
  /\ walk tree
     = (tree :: children_of tree
          ++ walk_queue (flat_map children_of (children_of tree)))%list
  /\ ((forall c n, c ∈ children_of tree -> n ∈ flat_map preorder (children_of c) ->
         is_FunctionDef n = false) ->
      fns = omap (record_of source_code) (preorder tree)).
Proof.
  intros Hp. cbn zeta. rewrite (parse_code_functions _ _ _ tree Hp). cbn [fst].
  assert (Hperm : walk tree ≡ₚ preorder tree).
  { unfold walk. rewrite walk_queue_perm. cbn [flat_map]. by rewrite app_nil_r. }
  assert (Hwalk : walk tree
                  = (tree :: children_of tree
                       ++ walk_queue (flat_map children_of (children_of tree)))%list).
  { unfold walk. rewrite walk_queue_cons. cbn [app]. by rewrite walk_queue_levels. }
  split_and!.
  - reflexivity.
  - by rewrite Hperm.
  - rewrite <- (omap_record_length source_code). by rewrite Hperm.
  - exact Hwalk.
  - intros Hflat. rewrite Hwalk, preorder_children.
    change (tree :: ?l)%list with ([tree] ++ l)%list. rewrite !omap_app. f_equal.
    rewrite (omap_record_none source_code (walk_queue _)).
    + rewrite app_nil_r. by apply omap_record_flat.
    + intros n Hn. rewrite walk_queue_perm in Hn.
      apply list_elem_of_In, in_flat_map in Hn as (g & Hg & Hn).
      apply in_flat_map in Hg as (c & Hc & Hg).
      apply (Hflat c n); [by apply list_elem_of_In|].
      apply list_elem_of_In, in_flat_map. exists g. split; [exact Hg | exact Hn].
Qed.

Lemma extraction_records_witness :
  let fns := fst (parse_code (parser_at Samples.source_nested Samples.tree_nested)
                    new_parser Samples.source_nested) in
  fns ≡ₚ omap (record_of Samples.source_nested) (preorder Samples.tree_nested)
  /\ List.length fns = 3%nat.
Proof.
  cbn zeta.
  destruct (extraction_records (parser_at Samples.source_nested Samples.tree_nested)
              new_parser Samples.source_nested Samples.tree_nested eq_refl)
    as (_ & Hperm & Hlen & _).
  split; [exact Hperm | exact Hlen].
Defined.

End ParserProps.

(** * Further properties *)

(** ** The unit extractor, continued *)

Module ExtractorProps.
Import PyStr StrProps Parser Coverage Statements.

(** X1. A parse starts from scratch: the list returned and the parser left
    behind do not depend on what the parser held before, so the functions of
    an earlier source are never carried into the next. *)
Theorem parse_code_forgets (ast_parse : string -> parse_failure + node)
    (self1 self2 : CodeParser) (source_code : string) :
  parse_code ast_parse self1 source_code = parse_code ast_parse self2 source_code
  /\ functions (snd (parse_code ast_parse self1 source_code))
     = fst (parse_code ast_parse self1 source_code).
Proof.
  unfold parse_code, _extract_functions.
  destruct (ast_parse source_code) as [[e|e]|tree]; cbn; done.
Qed.

(** X2. The accuracy is 100 exactly when the text parses and 0 when it does
    not; the value 95 is never produced, because nothing adds to the error
    list during extraction.  A text that does not parse gives no function
    and exactly one error message. *)
Theorem accuracy_values (ast_parse : string -> parse_failure + node)
    (self : CodeParser) (source_code : string) :
  let out := parse_code ast_parse self source_code in
  match ast_parse source_code with
  | inr _ => accuracy (snd out) = 100 /\ errors (snd out) = []
  | inl failure =>
      accuracy (snd out) = 0 /\ fst out = [] /\ functions (snd out) = []
      /\ errors (snd out)
         = [match failure with
            | SyntaxError e => "Syntax Error: " ++ e
            | OtherError e => "Parse Error: " ++ e
            end]
  end.
Proof.
  cbn zeta. unfold parse_code, _extract_functions.
  destruct (ast_parse source_code) as [[e|e]|tree]; cbn; done.
Qed.

Lemma py_slice_inside {A} (l : list A) (a b : Z) :
  0 <= a -> a <= b -> b <= Z.of_nat (List.length l) ->
  py_slice l a b = take (Z.to_nat (b - a)) (drop (Z.to_nat a) l).
Proof.
  intros Ha Hab Hb. unfold py_slice.
  destruct (a <? 0) eqn:Ea; [apply Z.ltb_lt in Ea; lia|].
  destruct (b <? 0) eqn:Eb; [apply Z.ltb_lt in Eb; lia|].
  by rewrite !Z.min_l by lia.
Qed.

Lemma py_slice_beyond {A} (l : list A) (a b : Z) :
  Z.of_nat (List.length l) <= a -> 0 <= b -> py_slice l a b = [].
Proof.
  intros Ha Hb. unfold py_slice.
  destruct (a <? 0) eqn:Ea; [apply Z.ltb_lt in Ea; lia|].
  destruct (b <? 0) eqn:Eb; [apply Z.ltb_lt in Eb; lia|].
  rewrite (Z.min_r a) by lia. rewrite drop_ge by lia. by rewrite take_nil.
Qed.

(** X3. For a definition that lies inside the text (line [lineno] up to the
    last line [end_lineno] of its body, both within the lines of the
    source), the body text is exactly that run of source lines: split
    again, it gives the lines [lineno .. end_lineno] unchanged, and there
    are [end_lineno - lineno + 1] of them. *)
Theorem function_body_lines (fd : FunctionDefNode) (source_code : string)
    (end_lineno : Z) :
  fd_body_end fd = Some end_lineno ->
  1 <= fd_lineno fd -> fd_lineno fd <= end_lineno ->
  end_lineno <= Z.of_nat (List.length (split nl source_code)) ->
  split nl (_get_function_body fd source_code)
  = take (Z.to_nat (end_lineno - fd_lineno fd + 1))
      (drop (Z.to_nat (fd_lineno fd - 1)) (split nl source_code))
  /\ Z.of_nat (List.length (split nl (_get_function_body fd source_code)))
     = end_lineno - fd_lineno fd + 1.
Proof.
  intros Hend H1 H2 H3. unfold _get_function_body. rewrite Hend.
  rewrite py_slice_inside by lia.
  replace (end_lineno - (fd_lineno fd - 1)) with (end_lineno - fd_lineno fd + 1) by lia.
  set (seg := take _ (drop _ _)).
  assert (Hlen : List.length seg = Z.to_nat (end_lineno - fd_lineno fd + 1)).
  { unfold seg. rewrite length_take, length_drop. lia. }
  assert (Hsplit : split nl (join nl seg) = seg).
  { apply (split_join (ascii_of_nat 10)).
    - intros Hnil. rewrite Hnil in Hlen. simpl in Hlen. lia.
    - unfold seg. apply Forall_take, Forall_drop, (split_no_char (ascii_of_nat 10)). }
  rewrite Hsplit. split; [reflexivity | lia].
Qed.

Lemma function_body_lines_witness :
  split nl (_get_function_body Samples.fd_b Samples.source_nested)
  = ["    def b():"; "        pass"].
Proof.
  destruct (function_body_lines Samples.fd_b Samples.source_nested 3 eq_refl)
    as [H _]; [vm_compute; discriminate .. | ].
  rewrite H. vm_compute. reflexivity.
Defined.

(** X4. At the edges: a definition without body statements gets its
    declaration line alone (not a window of ten lines), and a definition
    whose line number lies beyond the text gets the empty body. *)
Theorem function_body_edges (fd : FunctionDefNode) (source_code : string) :
  (fd_body_end fd = None -> 1 <= fd_lineno fd ->
   fd_lineno fd <= Z.of_nat (List.length (split nl source_code)) ->
   Some (_get_function_body fd source_code)
   = split nl source_code !! Z.to_nat (fd_lineno fd - 1))
  /\ (Z.of_nat (List.length (split nl source_code)) < fd_lineno fd ->
      (forall e, fd_body_end fd = Some e -> 0 <= e) ->
      _get_function_body fd source_code = "").
Proof.
  split.
  - intros Hend H1 H2. unfold _get_function_body. rewrite Hend.
    rewrite py_slice_inside by lia.
    replace (fd_lineno fd - 1 + 1 - (fd_lineno fd - 1)) with 1 by lia.
    destruct (lookup_lt_is_Some_2 (split nl source_code) (Z.to_nat (fd_lineno fd - 1)))
      as [line Hline]; [lia|].
    rewrite Hline. apply drop_S in Hline as Hd. rewrite Hd.
    reflexivity.
  - intros Hbeyond Hpos. unfold _get_function_body.
    rewrite py_slice_beyond; [reflexivity | lia |].
    destruct (fd_body_end fd) as [e|]; [by apply Hpos | lia].
Qed.

Lemma function_body_edges_witness :
  Some (_get_function_body
          {| fd_name := "a"; fd_args := []; fd_returns := None; fd_lineno := 1;
             fd_docstring := None; fd_body_end := None |} Samples.source_nested)
  = Some "def a():"
  /\ _get_function_body
       {| fd_name := "z"; fd_args := []; fd_returns := None; fd_lineno := 40;
          fd_docstring := None; fd_body_end := Some 41 |} Samples.source_nested
     = "".
Proof.
  assert (H1 : 1 <= 1) by lia.
  assert (H2 : 1 <= Z.of_nat (List.length (split nl Samples.source_nested)))
    by (vm_compute; discriminate).
  assert (H3 : Z.of_nat (List.length (split nl Samples.source_nested)) < 40)
    by (vm_compute; reflexivity).
  split.
  - rewrite (proj1 (function_body_edges
                      {| fd_name := "a"; fd_args := []; fd_returns := None; fd_lineno := 1;
                         fd_docstring := None; fd_body_end := None |}
                      Samples.source_nested) eq_refl H1 H2).
    vm_compute. reflexivity.
  - apply (proj2 (function_body_edges
                    {| fd_name := "z"; fd_args := []; fd_returns := None; fd_lineno := 40;
                       fd_docstring := None; fd_body_end := Some 41 |}
                    Samples.source_nested) H3).
    intros e [= <-]. lia.
Defined.

Lemma count_documented_bounds (fs : list FunctionInfo) :
  0 <= count_documented fs <= Z.of_nat (List.length fs).
Proof.
  induction fs as [|f fs IH]; [simpl; lia|].
  cbn [count_documented List.length]. destruct (truthy_opt _); lia.
Qed.

(** X5. The coverage counts add up: the units with and without
    documentation make the total, which is the number of extracted units,
    and neither count is negative.  A unit whose documentation is the empty
    text counts as without. *)
Theorem coverage_counts (self : CodeParser) :
  let stats := get_coverage_stats self in
  total stats = Z.of_nat (List.length (functions self))
  /\ with_docstring stats + without_docstring stats = total stats
  /\ 0 <= with_docstring stats /\ 0 <= without_docstring stats
  /\ with_docstring stats
     = Z.of_nat (List.length
                   (List.filter (fun f => truthy_opt (existing_docstring f)) (functions self))).
Proof.
  cbn zeta. unfold get_coverage_stats.
  pose proof (count_documented_bounds (functions self)) as Hb.
  assert (Hc : count_documented (functions self)
               = Z.of_nat (List.length
                   (List.filter (fun f => truthy_opt (existing_docstring f)) (functions self)))).
  { clear Hb. induction (functions self) as [|f fs IH]; [done|].
    cbn [count_documented List.filter]. destruct (truthy_opt _); cbn [List.length]; lia. }
  destruct (Z.of_nat (List.length (functions self)) =? 0) eqn:E; cbn.
  - apply Z.eqb_eq in E. split_and!; try lia.
  - split_and!; try lia.
Qed.

End ExtractorProps.

(** ** The response interpreter and the orchestrator, continued *)

Module GeneratorMoreProps.
Import PyStr StrProps Generator Samples Statements MoreStatements GeneratorProps.

(** *** Stripping *)

Lemma rstrip_cons (c : ascii) (r : string) :
  rstrip (String c r)
  = match rstrip r with
    | EmptyString => if isspace c then EmptyString else String c EmptyString
    | String a r' => String c (String a r')
    end.
Proof. reflexivity. Qed.

Lemma lstrip_idem (s : string) : lstrip (lstrip s) = lstrip s.
Proof.
  induction s as [|c s IH]; [done|]. cbn [lstrip].
  destruct (isspace c) eqn:E; [exact IH|]. cbn [lstrip]. by rewrite E.
Qed.

Lemma rstrip_idem (s : string) : rstrip (rstrip s) = rstrip s.
Proof.
  induction s as [|c s IH]; [done|]. rewrite rstrip_cons.
  destruct (rstrip s) as [|a r'] eqn:Hr.
  - destruct (isspace c) eqn:E; [done|]. rewrite rstrip_cons. cbn [rstrip]. by rewrite E.
  - rewrite rstrip_cons, IH. reflexivity.
Qed.

Lemma rstrip_fixed_lstrip (u : string) : rstrip u = u -> rstrip (lstrip u) = lstrip u.
Proof.
  induction u as [|c r IH]; [done|]. intros H. cbn [lstrip].
  destruct (isspace c) eqn:E; [|exact H]. apply IH.
  rewrite rstrip_cons in H. destruct (rstrip r) as [|a r'] eqn:Hr.
  - rewrite E in H. discriminate.
  - by injection H.
Qed.

Lemma strip_idem (s : string) : strip (strip s) = strip s.
Proof.
  unfold strip. rewrite (rstrip_fixed_lstrip (rstrip s)) by apply rstrip_idem.
  apply lstrip_idem.
Qed.

Lemma clean_strip_fixed (docstring_text : string) :
  strip (_clean_docstring docstring_text) = _clean_docstring docstring_text.
Proof. unfold _clean_docstring. cbn zeta. apply strip_idem. Qed.

(** X6. The text that [_clean_docstring] returns has no white space around
    it: stripping it again changes nothing. *)
Theorem clean_docstring_stripped (docstring_text : string) :
  strip (_clean_docstring docstring_text) = _clean_docstring docstring_text.
Proof. unfold _clean_docstring. cbn zeta. apply strip_idem. Qed.

(** *** Responses *)

Lemma split_go_no_sep (sep cur s : string) :
  contains sep s = false -> split_go sep 0 cur s = [cur ++ s].
Proof.
  revert cur. induction s as [|c s IH]; intros cur H.
  - cbn [split_go]. by rewrite append_nil_r.
  - cbn [contains] in H. apply orb_false_iff in H as [Hp Hc].
    cbn [split_go]. rewrite Hp, IH by done. by rewrite append_assoc.
Qed.

(** X7. A response without the marker [FIXED_CODE:] is taken whole as the
    documentation text: the cleaned response is the [docstring] entry, there
    is no fixed code and the error list is empty. *)
Theorem response_without_marker (response_text : string) (function_info : FunctionInfo) :
  contains "FIXED_CODE:" response_text = false ->
  let r := _parse_response response_text function_info in
  r !! "docstring" = Some (PStr (_clean_docstring (strip response_text)))
  /\ r !! "fixed_code" = Some PNone
  /\ r !! "errors" = Some (PList []).
Proof.
  intros H. cbn zeta. unfold _parse_response, parse_sections, split.
  rewrite (split_go_no_sep _ _ _ H). cbn [List.length Nat.leb].
  unfold initial_result. split_and!; by simplify_map_eq.
Qed.

Lemma response_without_marker_witness :
  _parse_response "Return the sum." unit_f !! "docstring" = Some (PStr "Return the sum.").
Proof.
  destruct (response_without_marker "Return the sum." unit_f) as [H _];
    [vm_compute; reflexivity|].
  rewrite H. vm_compute. reflexivity.
Defined.

Lemma truthy_text (s : string) : truthy (PStr s) = true -> s <> "".
Proof. cbn. destruct (String.eqb_spec s ""); [done | auto]. Qed.

Lemma parse_response_shape (response_text : string) (function_info : FunctionInfo) :
  response_shape (_parse_response response_text function_info).
Proof.
  unfold _parse_response.
  destruct (ParseResponseProps.parse_sections_returns response_text) as (result & Hr & _).
  rewrite Hr. revert Hr. unfold parse_sections.
  destruct (2 <=? List.length (split "FIXED_CODE:" response_text))%nat eqn:H1.
  - apply Nat.leb_le in H1.
    destruct (ParseResponseProps.py_index_lt (split "FIXED_CODE:" response_text) 0)
      as [s0 ->]; [lia|].
    destruct (ParseResponseProps.py_index_lt (split "FIXED_CODE:" response_text) 1)
      as [s1 ->]; [lia|].
    cbn [bind_exn].
    destruct (2 <=? List.length (split "ERRORS_FOUND:" s1))%nat eqn:H2.
    + apply Nat.leb_le in H2.
      destruct (ParseResponseProps.py_index_lt (split "ERRORS_FOUND:" s1) 0)
        as [e0 ->]; [lia|].
      destruct (ParseResponseProps.py_index_lt (split "ERRORS_FOUND:" s1) 1)
        as [e1 ->]; [lia|].
      cbn [bind_exn].
      destruct (truthy (PStr (strip e0))) eqn:Tf;
        destruct (contains "No fixes needed" (strip e0)) eqn:Cf;
        destruct (truthy (PStr (strip e1))) eqn:Te;
        destruct (contains "None" (strip e1)) eqn:Ce;
        cbn [andb negb]; intros [= <-]; unfold response_shape, initial_result;
        (split_and!;
         [ eexists; split; [by simplify_map_eq | apply clean_strip_fixed]
         | first [ left; by simplify_map_eq
                 | right; eexists; split_and!;
                     [by simplify_map_eq | by apply truthy_text | done] ]
         | first [ left; by simplify_map_eq
                 | right; eexists; split_and!;
                     [by simplify_map_eq | by apply truthy_text | done] ]
         | rewrite ?dom_insert_L, dom_empty_L; set_solver ]).
    + intros [= <-]. unfold response_shape, initial_result. split_and!.
      * eexists; split; [by simplify_map_eq | apply clean_strip_fixed].
      * left; by simplify_map_eq.
      * left; by simplify_map_eq.
      * rewrite ?dom_insert_L, dom_empty_L; set_solver.
  - intros [= <-]. unfold response_shape, initial_result. split_and!.
    + eexists; split; [by simplify_map_eq | apply clean_strip_fixed].
    + left; by simplify_map_eq.
    + left; by simplify_map_eq.
    + rewrite ?dom_insert_L, dom_empty_L; set_solver.
Qed.

(** X8. The sentinels work as absence: the [fixed_code] entry of a parsed
    response is [None] or a non-empty text that does not contain
    [No fixes needed], and the [errors] entry is the empty list or one
    non-empty text that does not contain [None].  The dictionary has
    exactly the keys [docstring], [fixed_code] and [errors], and its
    [docstring] is a text without surrounding white space. *)
Theorem parse_response_fields (response_text : string) (function_info : FunctionInfo) :
  let r := _parse_response response_text function_info in
  (exists d, r !! "docstring" = Some (PStr d) /\ strip d = d)
  /\ (r !! "fixed_code" = Some PNone
      \/ exists c, r !! "fixed_code" = Some (PStr c) /\ c <> ""
                   /\ contains "No fixes needed" c = false)
  /\ (r !! "errors" = Some (PList [])
      \/ exists e, r !! "errors" = Some (PList [e]) /\ e <> ""
                   /\ contains "None" e = false)
  /\ dom r = ({["docstring"; "fixed_code"; "errors"]} : gset string).
Proof. exact (parse_response_shape response_text function_info). Qed.

(** *** Results *)

Section WithService.

Context {Svc : Type}.
Variable generate_content : Svc -> string -> Svc * (exn + string).

Lemma generate_docstring_readable (self : DocstringGenerator) (w : World)
    (function_info : FunctionInfo) (style : string) :
  readable (fst (generate_docstring generate_content self w function_info style)).
Proof.
  unfold generate_docstring, call_service, readable.
  destruct (model self); [|cbn [fst]; split_and!; [eexists | left | eexists]; by simplify_map_eq].
  destruct (truthy_opt (existing_docstring function_info));
    [cbn [fst]; split_and!; [eexists | left | eexists]; by simplify_map_eq|].
  destruct (generate_content (svc w) (_create_prompt function_info style)) as [st [e|text]];
    cbn [fst]; [split_and!; [eexists | left | eexists]; by simplify_map_eq|].
  destruct (parse_response_shape text function_info)
    as ((d & Hd & _) & Hf & He & _).
  split_and!.
  - exists d. by simplify_map_eq.
  - destruct Hf as [Hf|(c & Hf & _)]; [left | right; exists c]; by simplify_map_eq.
  - destruct He as [He|(e & He & _)]; eexists; by simplify_map_eq.
Qed.

Lemma batch_loop_all (P : gmap string pyval -> Prop) self style cb total
    (fs : list FunctionInfo) i results (w : World) :
  (forall w' u, P (fst (generate_docstring generate_content self w' u style))) ->
  map_Forall (fun _ r => P r) results ->
  map_Forall (fun _ r => P r)
    (fst (batch_loop generate_content self style cb total fs i results w)).
Proof.
  intros Hgen. revert i results w. induction fs as [|u fs IH]; intros i results w Hres.
  - exact Hres.
  - cbn [batch_loop]. pose proof (Hgen w u) as Hu.
    destruct (generate_docstring generate_content self w u style) as [r w1].
    apply IH. by apply map_Forall_insert_2.
Qed.

(** X9. A batch gives every unit name an entry, whatever the service does
    (a call that fails does not stop the batch), and every entry has a
    [docstring] that is a text, a [fixed_code] that is [None] or a text and
    an [errors] list, so that reading these three never fails. *)
Theorem batch_entries_readable (self : DocstringGenerator) (w : World)
    (functions : list FunctionInfo) (style : string) (progress_callback : bool) :
  let out := generate_batch generate_content self w functions style progress_callback in
  dom (fst out) = (list_to_set (map name functions) : gset string)
  /\ forall nm r, fst out !! nm = Some r ->
       (exists d, r !! "docstring" = Some (PStr d))
       /\ (r !! "fixed_code" = Some PNone \/ exists c, r !! "fixed_code" = Some (PStr c))
       /\ (exists l, r !! "errors" = Some (PList l)).
Proof.
  cbn zeta. unfold generate_batch. split.
  - rewrite batch_loop_dom, dom_empty_L. set_solver.
  - intros nm r Hr.
    eapply (batch_loop_all readable); [| apply map_Forall_empty | exact Hr].
    intros w' u. apply generate_docstring_readable.
Qed.

(** X10. Documentation that a unit already has is never replaced: with a
    key configured, the entry of such a unit (when no later unit has its
    name) carries the unit's own text with status [existing], no fixed code
    and no error. *)
Theorem batch_keeps_existing (self : DocstringGenerator) (w : World)
    (l1 l2 : list FunctionInfo) (u : FunctionInfo) (style : string)
    (progress_callback : bool) (m d : string) :
  model self = Some m ->
  existing_docstring u = Some d -> d <> "" ->
  name u ∉ map name l2 ->
  fst (generate_batch generate_content self w (l1 ++ u :: l2) style progress_callback)
    !! name u
  = Some (<["status" := PStr "existing"]>
            (<["errors" := PList []]>
               (<["fixed_code" := PNone]> (<["docstring" := PStr d]> ∅)))).
Proof.
  intros Hm Hd Hne Hlast. unfold generate_batch.
  rewrite batch_loop_app. cbn [batch_loop].
  assert (Ht : truthy_opt (existing_docstring u) = true).
  { rewrite Hd. cbn. by destruct (String.eqb_spec d ""). }
  unfold generate_docstring at 1. rewrite Hm, Ht, Hd. cbn [default from_option id].
  rewrite batch_loop_lookup_other by exact Hlast.
  by rewrite lookup_insert_eq.
Qed.

Lemma batch_loop_keyless self style cb total (fs : list FunctionInfo) i results
    (w : World) (nm : string) :
  model self = None ->
  let out := batch_loop generate_content self style cb total fs i results w in
  svc (snd out) = svc w /\ calls (snd out) = calls w
  /\ fst out !! nm
     = if bool_decide (nm ∈ map name fs) then Some no_key_result else results !! nm.
Proof.
  intros Hm. cbn zeta. revert i results w.
  induction fs as [|u fs IH]; intros i results w.
  - cbn. done.
  - cbn [batch_loop map]. unfold generate_docstring at 1 2 3. rewrite Hm.
    fold no_key_result.
    destruct (IH (i + 1) (<[name u := no_key_result]> results)
                (call_progress cb w (i + 1) total)) as (Hs & Hc & Hl).
    rewrite Hs, Hc, Hl. split_and!.
    + unfold call_progress. by destruct cb.
    + unfold call_progress. by destruct cb.
    + repeat case_bool_decide; try done.
      * set_solver.
      * destruct (decide (name u = nm)) as [->|Hne]; [by rewrite lookup_insert_eq | set_solver].
      * rewrite lookup_insert_ne; [done | set_solver].
Qed.

(** X11. Without a key a batch sends nothing: the service and the list of
    requests are as before, and the mapping holds, for each unit name, the
    same fixed dictionary with the message that no key is configured. *)
Theorem keyless_batch_sends_nothing (self : DocstringGenerator) (w : World)
    (functions : list FunctionInfo) (style : string) (progress_callback : bool) :
  model self = None ->
  let out := generate_batch generate_content self w functions style progress_callback in
  svc (snd out) = svc w /\ calls (snd out) = calls w
  /\ forall nm, fst out !! nm
       = if bool_decide (nm ∈ map name functions) then Some no_key_result else None.
Proof.
  intros Hm. cbn zeta. unfold generate_batch. split_and!.
  - by apply (batch_loop_keyless self style progress_callback _ functions 0 ∅ w "").
  - by apply (batch_loop_keyless self style progress_callback _ functions 0 ∅ w "").
  - intros nm.
    destruct (batch_loop_keyless self style progress_callback
                (Z.of_nat (List.length functions)) functions 0 ∅ w nm Hm) as (_ & _ & ->).
    by rewrite lookup_empty.
Qed.

Lemma requests_count (self : DocstringGenerator) (style m : string)
    (fs : list FunctionInfo) :
  model self = Some m ->
  Z.of_nat (List.length (List.concat (map (requests_of self style) fs)))
  = Z.of_nat (List.length fs) - Coverage.count_documented fs.
Proof.
  intros Hm. induction fs as [|u fs IH]; [done|].
  cbn [map List.concat Coverage.count_documented List.length].
  rewrite length_app. unfold requests_of at 1. rewrite Hm.
  destruct (truthy_opt (existing_docstring u)); cbn [List.length]; lia.
Qed.

(** X12. The coverage report predicts the traffic: with a key configured, a
    batch over the extracted units sends exactly as many requests as the
    report counts units without documentation. *)
Theorem requests_match_coverage (self : DocstringGenerator) (w : World)
    (parser : Parser.CodeParser) (style : string) (progress_callback : bool)
    (m : string) :
  model self = Some m ->
  let out := generate_batch generate_content self w (Parser.functions parser) style
               progress_callback in
  Z.of_nat (List.length (calls (snd out)))
  = Z.of_nat (List.length (calls w))
    + Coverage.without_docstring (Coverage.get_coverage_stats parser).
Proof.
  intros Hm. cbn zeta. unfold generate_batch.
  rewrite batch_loop_calls, length_app, Nat2Z.inj_add, (requests_count self style m) by done.
  unfold Coverage.get_coverage_stats.
  destruct (Z.of_nat (List.length (Parser.functions parser)) =? 0) eqn:E; cbn; [|reflexivity].
  apply Z.eqb_eq in E.
  destruct (Parser.functions parser); [reflexivity | cbn [List.length] in E; lia].
Qed.

End WithService.

Lemma batch_entries_readable_witness :
  let out := generate_batch (failing_service "quota") keyed_generator empty_world
               [unit_f; unit_g] "Google" false in
  exists r d, fst out !! "f" = Some r /\ r !! "docstring" = Some (PStr d).
Proof.
  cbn zeta.
  pose proof (batch_entries_readable (failing_service "quota") keyed_generator empty_world
                [unit_f; unit_g] "Google" false) as [_ H].
  cbn zeta in H.
  destruct (fst (generate_batch (failing_service "quota") keyed_generator empty_world
                   [unit_f; unit_g] "Google" false) !! "f") as [r|] eqn:Hr;
    [|vm_compute in Hr; discriminate].
  destruct (H "f" r Hr) as ((d & Hd) & _). exists r, d. done.
Defined.

Lemma batch_keeps_existing_witness :
  exists r,
    fst (generate_batch (constant_service "New text.") keyed_generator empty_world
           ([unit_f] ++ unit_g :: [unit_f2]) "Google" false) !! "g" = Some r
    /\ r !! "docstring" = Some (PStr "Does nothing.").
Proof.
  eexists. split.
  - apply (batch_keeps_existing (constant_service "New text.") keyed_generator empty_world
             [unit_f] [unit_f2] unit_g "Google" false GEMINI_MODEL "Does nothing.");
      [reflexivity | reflexivity | discriminate | vm_compute; set_solver].
  - vm_compute. reflexivity.
Defined.

Lemma keyless_batch_sends_nothing_witness :
  let out := generate_batch (constant_service "x") keyless_generator empty_world
               [unit_f; unit_g] "reST" true in
  calls (snd out) = [] /\ fst out !! "g" = Some no_key_result.
Proof.
  cbn zeta.
  destruct (keyless_batch_sends_nothing (constant_service "x") keyless_generator empty_world
              [unit_f; unit_g] "reST" true eq_refl) as (_ & Hc & Hl).
  split; [exact Hc|]. rewrite (Hl "g"). reflexivity.
Defined.

Lemma requests_match_coverage_witness :
  let parser := {| Parser.functions := [unit_f; unit_g; unit_f2];
                   Parser.errors := []; Parser.accuracy := 100 |} in
  Z.of_nat (List.length
              (calls (snd (generate_batch (constant_service "Fine.") keyed_generator
                             empty_world (Parser.functions parser) "Google" false))))
  = 0 + Coverage.without_docstring (Coverage.get_coverage_stats parser).
Proof.
  exact (requests_match_coverage (constant_service "Fine.") keyed_generator empty_world
           {| Parser.functions := [unit_f; unit_g; unit_f2];
              Parser.errors := []; Parser.accuracy := 100 |}
           "Google" false GEMINI_MODEL eq_refl).
Defined.

(** X13. Which keys count: the generator has a client exactly when the key
    passed in or, failing that, the key of the environment is a non-empty
    text; an empty text is no key, and a key passed in wins over the
    environment. *)
Theorem init_key_choice (env key : option string) :
  (model (__init__ env key) = None
   <-> truthy_opt key = false /\ truthy_opt env = false)
  /\ (truthy_opt key = true -> api_key (__init__ env key) = key)
  /\ (truthy_opt key = false -> api_key (__init__ env key) = env).
Proof.
  unfold __init__. destruct (truthy_opt key) eqn:Hk; cbn [api_key model].
  - rewrite Hk. split_and!; [split; [discriminate | intros [? _]; discriminate] | done | done].
  - destruct (truthy_opt env) eqn:He;
      split_and!; try done; split; try done; intros [_ ?]; discriminate.
Qed.

Lemma init_key_choice_witness :
  model (__init__ None (Some "")) = None
  /\ api_key (__init__ (Some "env") (Some "mine")) = Some "mine".
Proof.
  split.
  - apply (proj1 (init_key_choice None (Some ""))). split; reflexivity.
  - apply (proj1 (proj2 (init_key_choice (Some "env") (Some "mine")))). reflexivity.
Defined.

End GeneratorMoreProps.

(** ** The style validator, continued *)

Module ValidatorMoreProps.
Import PyStr StrProps Validator Status Statements MoreStatements ValidatorProps.

(** X14. A validation pass does not look at what the validator held
    before: the result is the same from any earlier state, so the findings
    of one pass never leak into the next. *)
Theorem validate_code_forgets (check : string -> exn + list Issue)
    (self1 self2 : DocstringValidator) (source_code : string)
    (generated_docstrings : option (gmap string (gmap string pyval))) :
  fst (validate_code check self1 source_code generated_docstrings)
  = fst (validate_code check self2 source_code generated_docstrings).
Proof.
  pose proof (validate_code_cases check self1 source_code generated_docstrings) as H1.
  pose proof (validate_code_cases check self2 source_code generated_docstrings) as H2.
  destruct (engine_report check source_code generated_docstrings) as [e|issues].
  - destruct H1 as [_ ->], H2 as [_ ->]. reflexivity.
  - destruct H1 as (m1 & Hm1 & _ & ->), H2 as (m2 & Hm2 & _ & ->).
    rewrite Hm1 in Hm2. injection Hm2 as <-. reflexivity.
Qed.

Lemma filter_split_perm {A} (p : A -> bool) (l : list A) :
  (List.filter p l ++ List.filter (fun x => negb (p x)) l)%list ≡ₚ l.
Proof.
  induction l as [|x l IH]; [done|]. cbn [List.filter].
  destruct (p x); cbn [negb app].
  - by constructor.
  - rewrite <- Permutation_middle. by constructor.
Qed.

Lemma sublist_map_filter {A B} (f : A -> B) (p : A -> bool) (l : list A) :
  sublist (map f (List.filter p l)) (map f l).
Proof.
  induction l as [|x l IH]; [constructor|]. cbn [List.filter map].
  destruct (p x); cbn [map]; [by apply sublist_skip | by apply sublist_cons].
Qed.

(** X15. No finding is lost or made up: after a pass that the rule engine
    completes, the errors and the warnings together are exactly the reported
    violations, each once, each list in the order of the report, and
    [total_issues] is the number of reported violations. *)
Theorem findings_partition (check : string -> exn + list Issue)
    (self : DocstringValidator) (source_code : string)
    (generated_docstrings : option (gmap string (gmap string pyval)))
    (issues : list Issue) :
  engine_report check source_code generated_docstrings = inr issues ->
  let r := fst (validate_code check self source_code generated_docstrings) in
  (errors r ++ warnings r)%list ≡ₚ map issue_dict issues
  /\ sublist (errors r) (map issue_dict issues)
  /\ sublist (warnings r) (map issue_dict issues)
  /\ total_issues r = Z.of_nat (List.length issues).
Proof.
  intros Hrep. cbn zeta.
  pose proof (validate_code_cases check self source_code generated_docstrings) as H.
  rewrite Hrep in H. destruct H as (merged & _ & _ & ->).
  cbn [fst _format_results errors warnings total_issues validator_after
       self_errors self_warnings].
  unfold error_issues, warning_issues. split_and!.
  - rewrite <- map_app. apply Permutation_map, filter_split_perm.
  - apply sublist_map_filter.
  - apply sublist_map_filter.
  - pose proof (error_warning_length issues) as Hl.
    unfold error_issues, warning_issues in Hl. lia.
Qed.

Lemma findings_partition_witness :
  let check := fun _ : string =>
    inr [ {| i_code := "D103"; i_message := "Missing docstring in public function";
             i_line := 1; i_definition := None |};
          {| i_code := "D400"; i_message := "First line should end with a period";
             i_line := 2; i_definition := None |} ] in
  total_issues (fst (validate_code check new_validator Samples.source_f None)) = 2.
Proof.
  cbn zeta.
  exact (proj2 (proj2 (proj2
    (findings_partition
       (fun _ : string =>
          inr [ {| i_code := "D103"; i_message := "Missing docstring in public function";
                   i_line := 1; i_definition := None |};
                {| i_code := "D400"; i_message := "First line should end with a period";
                   i_line := 2; i_definition := None |} ])
       new_validator Samples.source_f None _ eq_refl)))).
Defined.

(** *** Splicing, continued *)

Lemma docstring_block_agree (line : string)
    (docs1 docs2 : gmap string (gmap string pyval)) :
  (forall nm, docs1 !! nm ≫= (.!! "docstring") = docs2 !! nm ≫= (.!! "docstring")) ->
  docstring_block line docs1 = docstring_block line docs2.
Proof.
  intros H. unfold docstring_block.
  destruct (startswith "def " (strip line)); [|done].
  destruct (extract_name line) as [e|nm]; [done|]. cbn [bind_exn].
  specialize (H nm).
  destruct (docs1 !! nm) as [r1|], (docs2 !! nm) as [r2|]; cbn in H.
  - by rewrite H.
  - by rewrite H.
  - by rewrite <- H.
  - done.
Qed.

(** X16. The splice of the validator reads the [docstring] entries and
    nothing else: two mappings that agree on them give the same merged
    source (or the same failure), whatever their [status], [errors] and
    [fixed_code] entries are.  So the message of a failed generation is
    spliced in like a generated text. *)
Theorem insert_docstrings_reads_docstring_only (source_code : string)
    (docs1 docs2 : gmap string (gmap string pyval)) :
  (forall nm, docs1 !! nm ≫= (.!! "docstring") = docs2 !! nm ≫= (.!! "docstring")) ->
  _insert_docstrings source_code docs1 = _insert_docstrings source_code docs2.
Proof.
  intros H. unfold _insert_docstrings. f_equal.
  generalize (@nil string). induction (split nl source_code) as [|line lines IH]; intros acc.
  - reflexivity.
  - cbn [insert_loop]. rewrite (docstring_block_agree line docs1 docs2 H).
    destruct (docstring_block line docs2) as [e|block]; cbn [bind_exn]; [done | apply IH].
Qed.

Lemma insert_docstrings_reads_docstring_only_witness :
  _insert_docstrings Samples.source_f Samples.docs_f
  = _insert_docstrings Samples.source_f {[ "f" := {[ "docstring" := PStr "Return x." ]} ]}.
Proof.
  apply insert_docstrings_reads_docstring_only.
  intros nm. destruct (decide (nm = "f")) as [->|Hne].
  - vm_compute. reflexivity.
  - unfold Samples.docs_f. by rewrite !lookup_singleton_ne.
Defined.

(** The text of a failed call becomes documentation in the merged source. *)
Example failed_generation_is_spliced :
  let results := fst (Generator.generate_batch (Samples.failing_service "quota")
                        Samples.keyed_generator Samples.empty_world
                        [Samples.unit_f] "Google" false) in
  _insert_docstrings Samples.source_f results
  = inr (join nl [ "def f(x):";
                   "    " ++ triple_dq;
                   "    Error generating docstring: quota";
                   "    " ++ triple_dq;
                   "    return x" ]).
Proof. vm_compute. reflexivity. Qed.

Lemma insert_loop_no_match (lines : list string)
    (docstrings : gmap string (gmap string pyval)) (acc : list string) :
  (forall line, line ∈ lines -> docstring_block line docstrings = inr []) ->
  insert_loop lines docstrings acc = inr (acc ++ lines)%list.
Proof.
  revert acc. induction lines as [|line lines IH]; intros acc H.
  - cbn. by rewrite app_nil_r.
  - cbn [insert_loop]. rewrite (H line) by constructor. cbn [bind_exn].
    rewrite app_nil_r, IH; [by rewrite <- app_assoc|].
    intros l Hl. apply H. by constructor.
Qed.

Lemma docstring_block_unknown (line : string)
    (docstrings : gmap string (gmap string pyval)) :
  (forall nm, extract_name line = inr nm -> docstrings !! nm = None) ->
  docstring_block line docstrings = inr [].
Proof.
  intros H. unfold docstring_block.
  destruct (startswith "def " (strip line)) eqn:Hdef; [|done].
  destruct (extract_name_returns line Hdef) as [nm Hnm]. rewrite Hnm. cbn [bind_exn].
  by rewrite (H nm Hnm).
Qed.

(** X17. Documentation for functions that the source does not define
    changes nothing: when no name that the splice extracts from a line of
    the source is a key of the mapping, validating with the mapping is
    validating the source alone. *)
Theorem validate_code_unrelated_mapping (check : string -> exn + list Issue)
    (self : DocstringValidator) (source_code : string)
    (docstrings : gmap string (gmap string pyval)) :
  (forall line nm, line ∈ split nl source_code -> extract_name line = inr nm ->
     docstrings !! nm = None) ->
  _insert_docstrings source_code docstrings = inr source_code
  /\ validate_code check self source_code (Some docstrings)
     = validate_code check self source_code None.
Proof.
  intros H.
  assert (Hins : _insert_docstrings source_code docstrings = inr source_code).
  { unfold _insert_docstrings. rewrite insert_loop_no_match.
    - cbn [bind_exn app]. f_equal. apply (join_split (ascii_of_nat 10)).
    - intros line Hline. apply docstring_block_unknown. intros nm. by apply H. }
  split; [exact Hins|].
  unfold validate_code, validate_try, merged_source.
  destruct (truthy_dict (Some docstrings)); [by rewrite Hins | done].
Qed.

Lemma validate_code_unrelated_mapping_witness :
  validate_code Samples.check_clean new_validator Samples.source_comment (Some Samples.docs_f)
  = validate_code Samples.check_clean new_validator Samples.source_comment None.
Proof.
  apply (validate_code_unrelated_mapping Samples.check_clean new_validator
           Samples.source_comment Samples.docs_f).
  intros line nm Hline Hnm. vm_compute in Hline.
  repeat (apply elem_of_cons in Hline as [->|Hline];
          [vm_compute in Hnm;
           first [discriminate | injection Hnm as <-; vm_compute; reflexivity]|]).
  by apply elem_of_nil in Hline.
Defined.

(** *** The status report *)

Lemma group_add_keys (acc : list (string * list Finding)) (f : Finding) :
  map fst (group_add acc f)
  = if bool_decide (code f ∈ map fst acc) then map fst acc
    else (map fst acc ++ [code f])%list.
Proof.
  induction acc as [|[c l] acc IH]; [done|]. cbn [group_add map fst].
  destruct (String.eqb_spec c (code f)) as [->|Hne]; cbn [map fst].
  - rewrite bool_decide_eq_true_2; [done | by constructor].
  - rewrite IH. repeat case_bool_decide; try done; set_solver.
Qed.

Lemma group_add_total (acc : list (string * list Finding)) (f : Finding) :
  group_total (group_add acc f) = group_total acc + 1.
Proof.
  unfold group_total.
  induction acc as [|[c l] acc IH]; [done|]. cbn [group_add].
  destruct (String.eqb c (code f)); cbn [map foldr snd].
  - rewrite length_app. cbn [List.length]. lia.
  - rewrite IH. lia.
Qed.

Lemma group_add_nonempty (acc : list (string * list Finding)) (f : Finding) :
  Forall (fun entry => snd entry <> []) acc ->
  Forall (fun entry => snd entry <> []) (group_add acc f).
Proof.
  induction acc as [|[c l] acc IH]; intros H.
  - by repeat constructor.
  - cbn [group_add]. inversion_clear H as [|? ? Hl Hacc].
    destruct (String.eqb c (code f)); constructor; auto.
    cbn. by destruct l.
Qed.

Lemma fold_group_keys (fs : list Finding) (acc : list (string * list Finding)) :
  NoDup (map fst acc) ->
  NoDup (map fst (fold_left group_add fs acc))
  /\ forall c, c ∈ map fst (fold_left group_add fs acc)
       <-> c ∈ map fst acc \/ exists f, f ∈ fs /\ code f = c.
Proof.
  revert acc. induction fs as [|f fs IH]; intros acc Hnd.
  - cbn. split; [done|]. intros c. split; [auto|]. intros [?|(f & Hf & _)]; [done|].
    by apply elem_of_nil in Hf.
  - cbn [fold_left].
    assert (Hnd' : NoDup (map fst (group_add acc f))).
    { rewrite group_add_keys. case_bool_decide; [done|].
      apply NoDup_app. split_and!; [done | | apply NoDup_singleton].
      intros x Hx Hx'. apply list_elem_of_singleton in Hx'. by subst. }
    destruct (IH _ Hnd') as [Hn Hk]. split; [exact Hn|].
    intros c. rewrite Hk, group_add_keys. case_bool_decide as Hin.
    + split.
      * intros [?|(g & Hg & Hc)]; [by left | right; exists g; split; [by constructor | done]].
      * intros [?|(g & Hg & Hc)]; [by left|].
        apply elem_of_cons in Hg as [->|Hg]; [left; by subst | right; eauto].
    + rewrite elem_of_app, list_elem_of_singleton. split.
      * intros [[?| ->]|(g & Hg & Hc)]; [by left | right; exists f; split; [constructor | done] |].
        right; exists g; split; [by constructor | done].
      * intros [?|(g & Hg & Hc)]; [by left; left|].
        apply elem_of_cons in Hg as [->|Hg]; [left; right; by subst | right; eauto].
Qed.

Lemma fold_group_total (fs : list Finding) (acc : list (string * list Finding)) :
  group_total (fold_left group_add fs acc) = group_total acc + Z.of_nat (List.length fs).
Proof.
  revert acc. induction fs as [|f fs IH]; intros acc; [cbn [fold_left List.length]; lia|].
  cbn [fold_left List.length]. rewrite IH, group_add_total. lia.
Qed.

Lemma fold_group_nonempty (fs : list Finding) (acc : list (string * list Finding)) :
  Forall (fun entry => snd entry <> []) acc ->
  Forall (fun entry => snd entry <> []) (fold_left group_add fs acc).
Proof.
  revert acc. induction fs as [|f fs IH]; intros acc H; [done|].
  cbn [fold_left]. by apply IH, group_add_nonempty.
Qed.

Lemma status_codes (results : Results) :
  map st_code (get_file_status results) = map fst (issue_types_of results).
Proof.
  unfold get_file_status. rewrite map_map. apply map_ext. by intros [c l].
Qed.

Lemma status_item_codes (results : Results) (c : string) :
  c ∈ map st_code (get_file_status results)
  <-> exists f, (f ∈ errors results \/ f ∈ warnings results) /\ code f = c.
Proof.
  destruct (fold_group_keys (errors results) [] (NoDup_nil_2)) as [Hn1 Hk1].
  destruct (fold_group_keys (warnings results) _ Hn1) as [Hn2 Hk2].
  rewrite status_codes. unfold issue_types_of. rewrite Hk2, Hk1. split.
  - intros [[Hnil|(f & Hf & Hc)]|(f & Hf & Hc)]; [by apply elem_of_nil in Hnil | eauto ..].
  - intros (f & [Hf|Hf] & Hc); [left; right; eauto | right; eauto].
Qed.

(** X18. The status report groups without loss: its counts add up to the
    number of errors and warnings of the result, every code of a finding
    has exactly one item and there is no item for any other code, and no
    item has the count 0. *)
Theorem file_status_counts (results : Results) :
  let items := get_file_status results in
  foldr Z.add 0 (map st_count items)
  = Z.of_nat (List.length (errors results)) + Z.of_nat (List.length (warnings results))
  /\ NoDup (map st_code items)
  /\ (forall c, c ∈ map st_code items
        <-> exists f, (f ∈ errors results \/ f ∈ warnings results) /\ code f = c)
  /\ Forall (fun item => 1 <= st_count item) items.
Proof.
  cbn zeta.
  destruct (fold_group_keys (errors results) [] (NoDup_nil_2)) as [Hn1 _].
  destruct (fold_group_keys (warnings results) _ Hn1) as [Hn2 _].
  split_and!.
  - transitivity (group_total (issue_types_of results)).
    + unfold get_file_status, group_total. rewrite !map_map. f_equal.
      apply map_ext. by intros [c l].
    + unfold issue_types_of. rewrite !fold_group_total. unfold group_total. cbn. lia.
  - rewrite status_codes. exact Hn2.
  - apply status_item_codes.
  - unfold get_file_status. apply Forall_map.
    eapply Forall_impl;
      [apply (fold_group_nonempty (warnings results)),
             (fold_group_nonempty (errors results)); constructor|].
    intros [c l] Hl. cbn in *. destruct l; [done | cbn [List.length]; lia].
Qed.

(** X19. After a pass that the rule engine completes, an item of the
    status report has severity [error] exactly when its code is among the
    errors of the result, and [warning] exactly when it is among the
    warnings.  After a pass that fails, the report has one item, for the
    code [ERROR], and gives it the severity [warning] although the result
    counts it as an error. *)
Theorem file_status_severity (check : string -> exn + list Issue)
    (self : DocstringValidator) (source_code : string)
    (generated_docstrings : option (gmap string (gmap string pyval))) :
  let r := fst (validate_code check self source_code generated_docstrings) in
  match engine_report check source_code generated_docstrings with
  | inr _ =>
      forall item, item ∈ get_file_status r ->
        (st_severity item = "error" <-> exists f, f ∈ errors r /\ code f = st_code item)
        /\ (st_severity item = "warning"
            <-> exists f, f ∈ warnings r /\ code f = st_code item)
  | inl e =>
      get_file_status r
      = [ {| st_code := "ERROR"; st_message := "PEP 257 violation: ERROR";
             st_count := 1; st_severity := "warning" |} ]
      /\ s_errors (summary r) = 1
  end.
Proof.
  cbn zeta.
  pose proof (validate_code_cases check self source_code generated_docstrings) as H.
  destruct (engine_report check source_code generated_docstrings) as [e|issues].
  - destruct H as [_ ->]. cbn [fst]. split; reflexivity.
  - destruct H as (merged & _ & _ & ->). cbn [fst].
    set (r := _format_results (validator_after merged issues)).
    assert (He : forall f, f ∈ errors r -> in_missing_codes (code f) = true).
    { intros f Hf. apply list_elem_of_In, in_map_iff in Hf as (i & <- & [_ Hi]%filter_In).
      exact Hi. }
    assert (Hw : forall f, f ∈ warnings r -> in_missing_codes (code f) = false).
    { intros f Hf. apply list_elem_of_In, in_map_iff in Hf as (i & <- & [_ Hi]%filter_In).
      by apply negb_true_iff in Hi. }
    intros item Hitem.
    assert (Hcode : exists f, (f ∈ errors r \/ f ∈ warnings r) /\ code f = st_code item).
    { apply (proj1 (status_item_codes r (st_code item))).
      apply list_elem_of_In, in_map, list_elem_of_In. exact Hitem. }
    assert (Hsev : st_severity item
                   = if in_missing_codes (st_code item) then "error" else "warning").
    { unfold get_file_status in Hitem.
      apply list_elem_of_In, in_map_iff in Hitem as ([c l] & <- & _). reflexivity. }
    destruct Hcode as (f & Hf & Hc). rewrite Hsev. split; split.
    + destruct (in_missing_codes (st_code item)) eqn:E; [|discriminate]. intros _.
      destruct Hf as [Hf|Hf]; [eauto|]. apply Hw in Hf. congruence.
    + intros (g & Hg & Hgc). apply He in Hg. by rewrite <- Hgc, Hg.
    + destruct (in_missing_codes (st_code item)) eqn:E; [discriminate|]. intros _.
      destruct Hf as [Hf|Hf]; [|eauto]. apply He in Hf. congruence.
    + intros (g & Hg & Hgc). apply Hw in Hg. by rewrite <- Hgc, Hg.
Qed.

(** *** The colour helper *)

Lemma startswith_two (x y : ascii) (c : string) :
  startswith (String x (String y "")) c = true
  <-> exists r, c = String x (String y r).
Proof.
  unfold startswith. destruct c as [|a [|b r]]; cbn.
  - split; [discriminate | intros [r [=]]].
  - destruct (ascii_dec x a); (split; [discriminate | intros [r' [=]]]); done.
  - destruct (ascii_dec x a) as [->|Ha].
    + destruct (ascii_dec y b) as [->|Hb].
      * split; [eauto | by destruct r].
      * split; [discriminate | intros [r' [= ?]]; done].
    + split; [discriminate | intros [r' [= ? ?]]; done].
Qed.

(** X20. [get_severity_color] answers [warning] exactly for the codes that
    start with [D2] or [D3] and [error] for every other text, unknown codes
    included.  It is never milder than the validator: a code that the
    validator files under errors is coloured [error], and a code coloured
    [warning] is a warning for the validator too. *)
Theorem severity_color_table (c : string) :
  (get_severity_color c = "warning"
   <-> startswith "D2" c || startswith "D3" c = true)
  /\ (get_severity_color c = "error"
      <-> startswith "D2" c || startswith "D3" c = false)
  /\ (in_missing_codes c = true -> get_severity_color c = "error")
  /\ (get_severity_color c = "warning" -> status_severity c = "warning").
Proof.
  assert (H12 : startswith "D1" c = true -> startswith "D2" c || startswith "D3" c = false).
  { intros [r ->]%startswith_two. reflexivity. }
  assert (Hmiss : in_missing_codes c = true -> get_severity_color c = "error").
  { intros Hc%in_missing_codes_spec. unfold missing_codes in Hc.
    repeat (apply elem_of_cons in Hc as [->|Hc]; [reflexivity|]).
    by apply elem_of_nil in Hc. }
  unfold get_severity_color, status_severity. split_and!.
  - destruct (startswith "D1" c) eqn:E1; [rewrite (H12 eq_refl); done|].
    destruct (startswith "D2" c); [done|]. destruct (startswith "D3" c); [done|].
    destruct (startswith "D4" c); done.
  - destruct (startswith "D1" c) eqn:E1; [rewrite (H12 eq_refl); done|].
    destruct (startswith "D2" c); [done|]. destruct (startswith "D3" c); [done|].
    destruct (startswith "D4" c); done.
  - exact Hmiss.
  - intros Hw.
    assert (Hd : in_missing_codes c = true \/ in_missing_codes c = false)
      by (destruct (in_missing_codes c); auto).
    destruct Hd as [E|E]; [|by rewrite E].
    apply Hmiss in E. unfold get_severity_color in E. congruence.
Qed.

Lemma severity_color_table_witness :
  get_severity_color "D103" = "error" /\ status_severity "D205" = "warning".
Proof.
  split.
  - apply (proj1 (proj2 (proj2 (severity_color_table "D103")))). reflexivity.
  - apply (proj2 (proj2 (proj2 (severity_color_table "D205")))). reflexivity.
Defined.

End ValidatorMoreProps.

(** ** Formatting one definition *)

Module HelpersProps.
Import PyStr StrProps Helpers Statements MoreStatements.

Lemma keep_loop_spec (rest : list string) (skip_next : bool) (acc : list string) :
  keep_loop rest skip_next acc = (acc ++ kept_lines rest skip_next)%list.
Proof.
  revert skip_next acc. induction rest as [|raw rest IH]; intros skip_next acc.
  - cbn. by rewrite app_nil_r.
  - cbn [keep_loop kept_lines].
    destruct (starts_with_quotes (strip raw)).
    + destruct (one_line_docstring (strip raw)); apply IH.
    + destruct skip_next.
      * destruct (has_quotes (strip raw)); apply IH.
      * rewrite IH, <- app_assoc. reflexivity.
Qed.

Lemma kept_lines_sublist (rest : list string) (skip_next : bool) :
  sublist (kept_lines rest skip_next) rest
  /\ Forall (fun raw => starts_with_quotes (strip raw) = false) (kept_lines rest skip_next).
Proof.
  revert skip_next. induction rest as [|raw rest IH]; intros skip_next.
  - cbn. split; constructor.
  - cbn [kept_lines].
    destruct (starts_with_quotes (strip raw)) eqn:Hq.
    + destruct (one_line_docstring (strip raw));
        (split; [apply sublist_cons; apply IH | apply IH]).
    + destruct skip_next.
      * destruct (has_quotes (strip raw));
          (split; [apply sublist_cons; apply IH | apply IH]).
      * split; [apply sublist_skip; apply IH | constructor; [exact Hq | apply IH]].
Qed.

Lemma find_def_line_spec (lines : list string) (i : nat) :
  (Forall (fun line => is_definition_line line = false) lines
   /\ find_def_line lines i = O)
  \/ exists k line,
       find_def_line lines i = (i + k)%nat /\ lines !! k = Some line
       /\ is_definition_line line = true
       /\ Forall (fun l => is_definition_line l = false) (take k lines).
Proof.
  revert i. induction lines as [|line lines IH]; intros i.
  - left. split; [constructor | reflexivity].
  - cbn [find_def_line]. destruct (is_definition_line line) eqn:Hd.
    + right. exists O, line. split_and!; [lia | done | done | constructor].
    + destruct (IH (S i)) as [[Hall H0]|(k & l & Hk & Hl & Hdl & Hall)].
      * left. split; [by constructor | exact H0].
      * right. exists (S k), l. split_and!; [lia | done | done | by constructor].
Qed.

(** X21. [format_code_with_docstring] puts the formatted text right after
    the first line that starts a [def] or a [class] (after the first line
    of the text when there is none), keeps every line up to there, and
    keeps of the lines after it a subsequence, in order, none of which
    starts with a triple quote. *)
Theorem format_code_structure (original_code docstring : string) (indent_level : Z) :
  let lines := split nl original_code in
  let idx := find_def_line lines O in
  let kept := kept_lines (drop (S idx) lines) false in
  format_code_with_docstring original_code docstring indent_level
  = join nl (take (S idx) lines
               ++ [formatted_docstring (repeat_text "    " indent_level) docstring]
               ++ kept)%list
  /\ sublist kept (drop (S idx) lines)
  /\ Forall (fun raw => starts_with_quotes (strip raw) = false) kept
  /\ ((Forall (fun line => is_definition_line line = false) lines /\ idx = O)
      \/ exists line, lines !! idx = Some line /\ is_definition_line line = true
                      /\ Forall (fun l => is_definition_line l = false) (take idx lines)).
Proof.
  cbn zeta. unfold format_code_with_docstring.
  rewrite keep_loop_spec, <- app_assoc.
  destruct (kept_lines_sublist (drop (S (find_def_line (split nl original_code) 0))
                                  (split nl original_code)) false) as [Hs Hf].
  split_and!; [reflexivity | exact Hs | exact Hf |].
  destruct (find_def_line_spec (split nl original_code) 0)
    as [H|(k & line & Hk & Hl & Hd & Hall)]; [by left|].
  right. exists line. rewrite Hk. cbn [Nat.add]. done.
Qed.

Lemma kept_lines_all (rest : list string) :
  Forall (fun raw => starts_with_quotes (strip raw) = false) rest ->
  kept_lines rest false = rest.
Proof.
  induction rest as [|raw rest IH]; intros H; [done|].
  inversion_clear H as [|? ? Hq Hrest]. cbn [kept_lines]. rewrite Hq.
  by rewrite IH.
Qed.

(** X22. Where no line after the definition line starts with a triple
    quote, nothing is removed: the result is the source with the formatted
    text inserted after the definition line. *)
Theorem format_code_inserts (original_code docstring : string) (indent_level : Z) :
  let lines := split nl original_code in
  let idx := find_def_line lines O in
  Forall (fun raw => starts_with_quotes (strip raw) = false) (drop (S idx) lines) ->
  format_code_with_docstring original_code docstring indent_level
  = join nl (take (S idx) lines
               ++ [formatted_docstring (repeat_text "    " indent_level) docstring]
               ++ drop (S idx) lines)%list.
Proof.
  cbn zeta. intros H. unfold format_code_with_docstring.
  rewrite keep_loop_spec, <- app_assoc, kept_lines_all by exact H. reflexivity.
Qed.

Lemma format_code_inserts_witness :
  format_code_with_docstring Samples.source_f "Return x." 1
  = join nl [ "def f(x):";
              "    " ++ triple_dq ++ nl ++ "    Return x." ++ nl ++ "    " ++ triple_dq;
              "    return x" ].
Proof.
  rewrite (format_code_inserts Samples.source_f "Return x." 1).
  - vm_compute. reflexivity.
  - vm_compute. repeat constructor.
Defined.

Lemma kept_lines_skipping (rest : list string) :
  Forall (fun raw => starts_with_quotes (strip raw) = true
                     \/ has_quotes (strip raw) = false) rest ->
  kept_lines rest true = [].
Proof.
  induction rest as [|raw rest IH]; intros H; [done|].
  inversion_clear H as [|? ? Hraw Hrest]. cbn [kept_lines].
  destruct (starts_with_quotes (strip raw)) eqn:Hq.
  - destruct (one_line_docstring (strip raw)); by apply IH.
  - destruct Hraw as [?|Hh]; [done|]. rewrite Hh. by apply IH.
Qed.

Lemma kept_lines_app (pre rest : list string) :
  Forall (fun raw => starts_with_quotes (strip raw) = false) pre ->
  kept_lines (pre ++ rest) false = (pre ++ kept_lines rest false)%list.
Proof.
  induction pre as [|raw pre IH]; intros H; [done|].
  inversion_clear H as [|? ? Hq Hpre]. cbn [app kept_lines]. rewrite Hq.
  by rewrite IH.
Qed.

(** X23. An old documentation text that opens with a triple quote on one
    line and does not close on that line switches the loop to skipping, and
    a line that starts with a triple quote never switches it back.  So when
    the closing quotes stand at the start of their line, as they do in the
    usual layout, and no later line has a triple quote in its middle, every
    line after the opening one is dropped, the code of the body included. *)
Theorem format_code_drops_after_open (original_code docstring : string)
    (indent_level : Z) (pre post : list string) (opener : string) :
  let lines := split nl original_code in
  let idx := find_def_line lines O in
  drop (S idx) lines = (pre ++ opener :: post)%list ->
  Forall (fun raw => starts_with_quotes (strip raw) = false) pre ->
  starts_with_quotes (strip opener) = true ->
  one_line_docstring (strip opener) = false ->
  Forall (fun raw => starts_with_quotes (strip raw) = true
                     \/ has_quotes (strip raw) = false) post ->
  format_code_with_docstring original_code docstring indent_level
  = join nl (take (S idx) lines
               ++ [formatted_docstring (repeat_text "    " indent_level) docstring]
               ++ pre)%list.
Proof.
  cbn zeta. intros Hdrop Hpre Hopen Hone Hpost. unfold format_code_with_docstring.
  rewrite keep_loop_spec, <- app_assoc, Hdrop, kept_lines_app by exact Hpre.
  cbn [kept_lines]. rewrite Hopen, Hone, kept_lines_skipping by exact Hpost.
  by rewrite app_nil_r.
Qed.

Lemma format_code_drops_after_open_witness :
  format_code_with_docstring source_documented "New." 1
  = join nl [ "def f(x):";
              "    " ++ triple_dq ++ nl ++ "    New." ++ nl ++ "    " ++ triple_dq ].
Proof.
  rewrite (format_code_drops_after_open source_documented "New." 1
             [] ["    Old."; "    " ++ triple_dq; "    return x"] ("    " ++ triple_dq)).
  - vm_compute. reflexivity.
  - vm_compute. reflexivity.
  - constructor.
  - vm_compute. reflexivity.
  - vm_compute. reflexivity.
  - repeat (apply Forall_cons; split;
            [first [left; vm_compute; reflexivity | right; vm_compute; reflexivity]|]).
    apply Forall_nil_2.
Defined.

End HelpersProps.

(** ** Writing the generated texts into the source *)

Module MainWindowProps.
Import PyStr StrProps Validator Helpers MainWindow Statements MoreStatements ValidatorProps.

Lemma generated_block_none (line : string) (following : list string)
    (generated : gmap string (gmap string pyval)) :
  (forall nm r, generated !! nm = Some r -> r !! "status" <> Some (PStr "generated")) ->
  generated_block line following generated = inr ([], O).
Proof.
  intros H. unfold generated_block.
  destruct (startswith "def " (strip line)) eqn:Hdef; [|done].
  destruct (extract_name_returns line Hdef) as [nm ->]. cbn [bind_exn].
  destruct (generated !! nm) as [r|] eqn:Hr; [|done].
  rewrite (bool_decide_eq_false_2 _ (H nm r Hr)), andb_false_r. done.
Qed.

Lemma into_loop_none (rest : list string) (generated : gmap string (gmap string pyval))
    (acc : list string) :
  (forall nm r, generated !! nm = Some r -> r !! "status" <> Some (PStr "generated")) ->
  into_loop rest O generated acc = inr (acc ++ rest)%list.
Proof.
  intros H. revert acc. induction rest as [|line rest IH]; intros acc.
  - cbn. by rewrite app_nil_r.
  - cbn [into_loop]. rewrite generated_block_none by exact H.
    cbn [bind_exn fst snd]. rewrite app_nil_r, IH, <- app_assoc. reflexivity.
Qed.

(** X24. Only generated texts are written: when no entry of the mapping has
    the status [generated] (entries with status [existing] or [error], or
    with no status at all), [_insert_docstrings_into_code] returns the
    source text unchanged. *)
Theorem save_without_generated (source_code : string)
    (generated : gmap string (gmap string pyval)) :
  (forall nm r, generated !! nm = Some r -> r !! "status" <> Some (PStr "generated")) ->
  _insert_docstrings_into_code source_code generated = inr source_code.
Proof.
  intros H. unfold _insert_docstrings_into_code.
  rewrite into_loop_none by exact H. cbn [bind_exn app].
  f_equal. apply (join_split (ascii_of_nat 10)).
Qed.

Lemma save_without_generated_witness :
  _insert_docstrings_into_code Samples.source_f
    {[ "f" := <["status" := PStr "error"]> Samples.no_key_result ]}
  = inr Samples.source_f.
Proof.
  apply save_without_generated. intros nm r Hr.
  apply lookup_singleton_Some in Hr as [_ <-]. vm_compute. discriminate.
Defined.

(** X25. After a batch without a key, saving writes nothing: the results of
    [generate_batch] carry no status, so the saved text is the source. *)
Theorem save_after_keyless_batch {Svc : Type}
    (generate_content : Svc -> string -> Svc * (exn + string))
    (self : Generator.DocstringGenerator) (w : Generator.World)
    (functions : list FunctionInfo) (style : string) (progress_callback : bool)
    (source_code : string) :
  Generator.model self = None ->
  _insert_docstrings_into_code source_code
    (fst (Generator.generate_batch generate_content self w functions style
            progress_callback))
  = inr source_code.
Proof.
  intros Hm. unfold _insert_docstrings_into_code.
  rewrite into_loop_none.
  - cbn [bind_exn app]. f_equal. apply (join_split (ascii_of_nat 10)).
  - intros nm r Hr. unfold Generator.generate_batch in Hr.
    destruct (GeneratorMoreProps.batch_loop_keyless generate_content self style
                progress_callback (Z.of_nat (List.length functions)) functions 0 ∅ w nm Hm)
      as (_ & _ & Hl).
    rewrite Hl in Hr. case_bool_decide; [|by rewrite lookup_empty in Hr].
    injection Hr as <-. vm_compute. discriminate.
Qed.

Lemma save_after_keyless_batch_witness :
  _insert_docstrings_into_code Samples.source_f
    (fst (Generator.generate_batch (Samples.constant_service "Fine.")
            Samples.keyless_generator Samples.empty_world [Samples.unit_f] "Google" false))
  = inr Samples.source_f.
Proof.
  exact (save_after_keyless_batch (Samples.constant_service "Fine.")
           Samples.keyless_generator Samples.empty_world [Samples.unit_f] "Google" false
           Samples.source_f eq_refl).
Defined.

Lemma old_docstring_span_none (following : list string) :
  Forall (fun raw => starts_with_quotes (strip raw) = false) following ->
  old_docstring_span following = O.
Proof.
  intros H. unfold old_docstring_span.
  pose proof (Forall_drop _ (blank_run following) _ H) as Hd.
  destruct (drop (blank_run following) following) as [|first rest]; [done|].
  inversion_clear Hd as [|? ? Hq _]. by rewrite Hq.
Qed.

Lemma generated_block_docstring_block (line : string) (following : list string)
    (generated : gmap string (gmap string pyval)) :
  Forall (fun raw => starts_with_quotes (strip raw) = false) following ->
  generated_block line following generated
  = match docstring_block line (generated_only generated) with
    | inl e => inl e
    | inr block => inr (block, O)
    end.
Proof.
  intros Hq. unfold generated_block, docstring_block.
  destruct (startswith "def " (strip line)); [|done].
  destruct (extract_name line) as [e|nm]; [done|]. cbn [bind_exn].
  unfold generated_only.
  destruct (generated !! nm) as [r|] eqn:Hr.
  - destruct (decide (r !! "status" = Some (PStr "generated"))) as [Hs|Hs].
    + rewrite (proj2 (map_lookup_filter_Some _ generated nm r)) by done.
      rewrite (bool_decide_eq_true_2 _ Hs), andb_true_r.
      destruct (truthy (default (PStr "") (r !! "docstring"))); [|done].
      destruct (default (PStr "") (r !! "docstring")); [done| |done].
      by rewrite old_docstring_span_none.
    + rewrite (bool_decide_eq_false_2 _ Hs), andb_false_r.
      destruct (filter _ generated !! nm) as [r'|] eqn:Hf; [|done].
      apply map_lookup_filter_Some in Hf as [Hr' Hs']. cbn in Hs'.
      rewrite Hr in Hr'. injection Hr' as <-. done.
  - destruct (filter _ generated !! nm) as [r'|] eqn:Hf; [|done].
    apply map_lookup_filter_Some in Hf as [Hr' _]. congruence.
Qed.

Lemma into_loop_insert_loop (rest : list string)
    (generated : gmap string (gmap string pyval)) (acc : list string) :
  Forall (fun raw => starts_with_quotes (strip raw) = false) rest ->
  into_loop rest O generated acc = insert_loop rest (generated_only generated) acc.
Proof.
  revert acc. induction rest as [|line rest IH]; intros acc H; [done|].
  inversion_clear H as [|? ? _ Hrest]. cbn [into_loop insert_loop].
  rewrite generated_block_docstring_block by exact Hrest.
  destruct (docstring_block line (generated_only generated)) as [e|block];
    cbn [bind_exn fst snd]; [done | by apply IH].
Qed.

(** X26. The two splices agree on sources without old documentation: where
    no line of the source starts with a triple quote, what the window saves
    is what the validator checks for the entries with status [generated]. *)
Theorem save_agrees_with_validator (source_code : string)
    (generated : gmap string (gmap string pyval)) :
  Forall (fun raw => starts_with_quotes (strip raw) = false) (split nl source_code) ->
  _insert_docstrings_into_code source_code generated
  = _insert_docstrings source_code (generated_only generated).
Proof.
  intros H. unfold _insert_docstrings_into_code, _insert_docstrings.
  by rewrite into_loop_insert_loop.
Qed.

Lemma save_agrees_with_validator_witness :
  _insert_docstrings_into_code Samples.source_f Samples.docs_f
  = _insert_docstrings Samples.source_f (generated_only Samples.docs_f).
Proof.
  apply save_agrees_with_validator. vm_compute. repeat constructor.
Defined.

Example save_generated_f :
  _insert_docstrings_into_code Samples.source_f Samples.docs_f
  = inr (join nl [ "def f(x):";
                   "    " ++ triple_dq;
                   "    Return x.";
                   "    " ++ triple_dq;
                   "    return x" ]).
Proof. vm_compute. reflexivity. Qed.

(** An old text is passed over up to the line that closes it. *)
Example save_replaces_old_text :
  _insert_docstrings_into_code source_documented Samples.docs_f
  = inr (join nl [ "def f(x):";
                   "    " ++ triple_dq;
                   "    Return x.";
                   "    " ++ triple_dq;
                   "    return x" ]).
Proof. vm_compute. reflexivity. Qed.

End MainWindowProps.
